(** * The About Me download pipeline: a shallow embedding

    Embeds the parts of [scripts/codio_downloader_images.py] and
    [scripts/publish_about_me.py] that carry the download and extraction
    pipeline: display names and slugs, the entry page search, the rate
    limiter, token refresh, archive extraction and the per student jobs.

    Conventions.
    - A Python [str] is the Rocq [string] of its UTF-8 bytes.  Every byte of
      a non-ASCII code point is at least 128, so dropping those bytes is
      [encode('ascii', 'ignore')].  White space and letter case are the
      ASCII ones.
    - Time is a rational number of seconds.
    - The network, the clock and the thread pool are oracles: functions
      and lists the environment picks and the code consumes. *)

From Stdlib Require Import Ascii String QArith Qminmax Lqa.
From stdpp Require Import gmap strings list fin_maps sorting.

Local Open Scope string_scope.

(** ** Python string primitives *)

Module Py.

Definition code (c : ascii) : N := N_of_ascii c.

(** [str.isspace] on one ASCII character: TAB..CR, FS..US and the blank. *)
Definition isspace (c : ascii) : bool :=
  let n := code c in
  ((9 <=? n) && (n <=? 13) || (28 <=? n) && (n <=? 32))%N.

Definition is_ascii (c : ascii) : bool := (code c <? 128)%N.

Definition is_lower (c : ascii) : bool := ((97 <=? code c) && (code c <=? 122))%N.
Definition is_upper (c : ascii) : bool := ((65 <=? code c) && (code c <=? 90))%N.
Definition is_digit (c : ascii) : bool := ((48 <=? code c) && (code c <=? 57))%N.

Definition upper_char (c : ascii) : ascii :=
  if is_lower c then ascii_of_N (code c - 32) else c.
Definition lower_char (c : ascii) : ascii :=
  if is_upper c then ascii_of_N (code c + 32) else c.

Fixpoint smap (f : ascii -> ascii) (s : string) : string :=
  match s with
  | EmptyString => EmptyString
  | String c s' => String (f c) (smap f s')
  end.

Fixpoint sfilter (p : ascii -> bool) (s : string) : string :=
  match s with
  | EmptyString => EmptyString
  | String c s' => if p c then String c (sfilter p s') else sfilter p s'
  end.

Fixpoint sforall (p : ascii -> bool) (s : string) : bool :=
  match s with
  | EmptyString => true
  | String c s' => p c && sforall p s'
  end.

Definition upper (s : string) : string := smap upper_char s.
Definition lower (s : string) : string := smap lower_char s.

(** Truthiness of a [str]: the empty string is false. *)
Definition truthy (s : string) : bool :=
  match s with EmptyString => false | _ => true end.

Fixpoint lstrip (s : string) : string :=
  match s with
  | EmptyString => EmptyString
  | String c s' => if isspace c then lstrip s' else s
  end.

(** [rstrip]: a white space character is dropped when nothing but white
    space follows it. *)
Fixpoint rstrip (s : string) : string :=
  match s with
  | EmptyString => EmptyString
  | String c s' =>
      match rstrip s' with
      | EmptyString => if isspace c then EmptyString else String c EmptyString
      | r => String c r
      end
  end.

Definition strip (s : string) : string := rstrip (lstrip s).

(** [str.split()] without arguments: the maximal runs of non white space. *)
Fixpoint split_from (cur : string) (s : string) : list string :=
  match s with
  | EmptyString => if truthy cur then [cur] else []
  | String c s' =>
      if isspace c
      then (if truthy cur then cur :: split_from EmptyString s'
            else split_from EmptyString s')
      else split_from (cur +:+ String c EmptyString) s'
  end.

Definition split (s : string) : list string := split_from EmptyString s.

(** [s.split(sep)] for a one character separator: empty fields are kept. *)
Fixpoint split_on_from (sep : ascii) (cur : string) (s : string) : list string :=
  match s with
  | EmptyString => [cur]
  | String c s' =>
      if Ascii.eqb c sep then cur :: split_on_from sep EmptyString s'
      else split_on_from sep (cur +:+ String c EmptyString) s'
  end.

Definition split_on (sep : ascii) (s : string) : list string :=
  split_on_from sep EmptyString s.

(** A continuation byte of a UTF-8 sequence. *)
Definition is_cont (c : ascii) : bool := ((128 <=? code c) && (code c <? 192))%N.

Fixpoint take_cont (s : string) : string :=
  match s with
  | String c s' => if is_cont c then String c (take_cont s') else EmptyString
  | EmptyString => EmptyString
  end.

(** [s[0]]: the first code point, [None] for the [IndexError] on the empty string. *)
Definition first_char (s : string) : option string :=
  match s with
  | EmptyString => None
  | String c s' => Some (String c (take_cont s'))
  end.

(** [sub in s]. *)
Definition contains (sub s : string) : bool :=
  match String.index 0 sub s with Some _ => true | None => false end.

(** [s.startswith(p)]. *)
Definition startswith (s p : string) : bool := String.prefix p s.

(** [s.replace(a, b)] for single characters. *)
Definition replace_char (a b : ascii) (s : string) : string :=
  smap (fun c => if Ascii.eqb c a then b else c) s.

(** [x or y] on strings. *)
Definition or_else (s d : string) : string := if truthy s then s else d.

End Py.

(** ** Display names ([publish_about_me.py], lines 1-41) *)

Definition PREFERRED_NAMES : gmap string string :=
  list_to_map
    [ ("Alexander", "Alex"); ("Ann-Tarah", "Annie"); ("Finnegan", "Finn");
      ("Jonathan", "Julian"); ("Nicolas", "Nico"); ("Shiyang", "April") ].

Definition SPECIAL_NAME_CASES : gmap string string :=
  list_to_map [ ("Michael Holland", "Micky H"); ("Michael H", "Micky H") ].

(** [d.get(k, default)]. *)
Definition dict_get (d : gmap string string) (k default : string) : string :=
  match d !! k with Some v => v | None => default end.

(** The generic rule of [parse_display_name], lines 27-41: preferred first
    name, then the initial of the last part. *)
Definition generic_display_name (stripped : string) : string :=
  let parts := Py.split stripped in
  match parts with
  | [p] => dict_get PREFERRED_NAMES p p
  | _ =>
      let first := List.hd EmptyString parts in
      let last := List.last parts EmptyString in
      let last_initial :=
        if Py.truthy last
        then match Py.first_char last with
             | Some c => Py.upper c
             | None => EmptyString
             end
        else EmptyString in
      let preferred_first := dict_get PREFERRED_NAMES first first in
      if Py.truthy last_initial
      then preferred_first +:+ " " +:+ last_initial
      else preferred_first
  end.

Definition parse_display_name (full_name : string) : string :=
  if negb (Py.truthy full_name) || negb (Py.truthy (Py.strip full_name))
  then "Unknown Student"
  else
    match SPECIAL_NAME_CASES !! Py.strip full_name with
    | Some special => special
    | None => generic_display_name (Py.strip full_name)
    end.

(** ** Slugs ([publish_about_me.py], lines 187-200) *)

(** The character class of the [re.sub] in [sanitize_name]. *)
Definition forbidden_chars : list ascii :=
  [ "<"; ">"; ":"; ascii_of_N 34; "/"; "\"; "|"; "?"; "*" ]%char.

Definition is_forbidden (c : ascii) : bool :=
  existsb (Ascii.eqb c) forbidden_chars.

Definition sanitize_name (name : string) : string :=
  let sanitized := Py.replace_char " " "_" name in
  let sanitized := Py.sfilter (fun c => negb (is_forbidden c)) sanitized in
  let sanitized := Py.sfilter Py.is_ascii sanitized in
  Py.or_else sanitized "unknown".

(** [\w]: letters, digits, the underscore; a byte of a non-ASCII code point
    is kept as a letter would be. *)
Definition is_word (c : ascii) : bool :=
  Py.is_lower c || Py.is_upper c || Py.is_digit c || Ascii.eqb c "_"
  || negb (Py.is_ascii c).

Definition is_dash_or_space (c : ascii) : bool :=
  Ascii.eqb c "-" || Py.isspace c.

(** [re.sub(r'[-\s]+', '-', text)]: each maximal run becomes one dash. *)
Fixpoint collapse_runs (in_run : bool) (s : string) : string :=
  match s with
  | EmptyString => EmptyString
  | String c s' =>
      if is_dash_or_space c
      then (if in_run then collapse_runs true s'
            else String "-" (collapse_runs true s'))
      else String c (collapse_runs false s')
  end.

Definition slugify (text : string) : string :=
  let text := Py.strip (Py.lower text) in
  let text := Py.sfilter (fun c => is_word c || is_dash_or_space c) text in
  collapse_runs false text.

(** ** Pure paths ([pathlib]) *)

Module PurePath.

Record t := mk { absolute : bool; parts : list string }.

(** Empty components and [.] are dropped when a path is parsed. *)
Definition keep_part (s : string) : bool :=
  Py.truthy s && negb (String.eqb s ".").

Definition parse (s : string) : t :=
  {| absolute := Py.startswith s "/";
     parts := List.filter keep_part (Py.split_on "/" s) |}.

(** [p / s]: an absolute right operand replaces the left one. *)
Definition joinpath (p : t) (s : string) : t :=
  let q := parse s in
  if absolute q then q
  else {| absolute := absolute p; parts := parts p ++ parts q |}.

(** One component pushed on a resolved prefix kept in reverse; [..] at the
    root stays at the root. *)
Definition push (rev_acc : list string) (part : string) : list string :=
  if String.eqb part ".." then List.tl rev_acc else part :: rev_acc.

Definition normalize (ps : list string) : list string :=
  List.rev (List.fold_left push ps []).

(** [p.resolve()] on a file system without symbolic links: the components
    from the root, [cwd] being the resolved working directory. *)
Definition resolve (cwd : list string) (p : t) : list string :=
  if absolute p then normalize (parts p)
  else List.rev (List.fold_left push (parts p) (List.rev cwd)).

(** [a.is_relative_to(b)] on resolved paths. *)
Definition is_relative_to (a b : list string) : bool :=
  bool_decide (b `prefix_of` a).

(** [p.relative_to(base)]; [None] is the [ValueError]. *)
Definition relative_to (p base : t) : option t :=
  if Bool.eqb (absolute p) (absolute base)
     && bool_decide (parts base `prefix_of` parts p)
  then Some {| absolute := false;
               parts := List.skipn (length (parts base)) (parts p) |}
  else None.

Fixpoint join_parts (ps : list string) : string :=
  match ps with
  | [] => EmptyString
  | [x] => x
  | x :: rest => x +:+ "/" +:+ join_parts rest
  end.

Definition str (p : t) : string :=
  if absolute p then "/" +:+ join_parts (parts p)
  else match parts p with
       | [] => "."
       | ps => join_parts ps
       end.

End PurePath.

(** ** The entry page search ([publish_about_me.py], lines 205-241) *)

(** A directory tree; a listing keeps the order in which [iterdir] yields
    the entries. *)
#[warnings="-register-all"] Inductive Node :=
| File (content : string)
| Dir (entries : list (string * Node)).

Definition Listing : Type := list (string * Node).

Fixpoint child (d : Listing) (name : string) : option Node :=
  match d with
  | [] => None
  | (n, x) :: rest => if String.eqb n name then Some x else child rest name
  end.

(** [(dir / name).exists() and (dir / name).is_file()]. *)
Definition is_file_in (d : Listing) (name : string) : bool :=
  match child d name with
  | Some (File _) => true
  | _ => false
  end.

Definition patterns : list string :=
  ["index.html"; "Index.html"; "INDEX.HTML"; "index.htm"; "Index.htm"].
Definition fallback_patterns : list string :=
  ["home.html"; "start.html"; "main.html"].

(** [for pattern in pats: if (d / pattern) is a file: return pattern]. *)
Definition first_pattern (d : Listing) (pats : list string) : option string :=
  List.find (is_file_in d) pats.

(** [x.is_dir() and not x.name.startswith('.')]: the listing of [x]. *)
Definition visible_dir (name : string) (x : Node) : option Listing :=
  match x with
  | Dir es => if Py.startswith name "." then None else Some es
  | File _ => None
  end.

(** The inner loop, lines 228-233. *)
Fixpoint search_subsubdirs (subdir_name : string) (l : Listing)
  : option (string * string) :=
  match l with
  | [] => None
  | (name, x) :: rest =>
      match visible_dir name x with
      | Some es =>
          match first_pattern es patterns with
          | Some pattern => Some (subdir_name +:+ "/" +:+ name, pattern)
          | None => search_subsubdirs subdir_name rest
          end
      | None => search_subsubdirs subdir_name rest
      end
  end.

(** The outer loop, lines 220-233. *)
Fixpoint search_subdirs (l : Listing) : option (string * string) :=
  match l with
  | [] => None
  | (name, x) :: rest =>
      match visible_dir name x with
      | Some es =>
          match first_pattern es patterns with
          | Some pattern => Some (name, pattern)
          | None =>
              match search_subsubdirs name es with
              | Some r => Some r
              | None => search_subdirs rest
              end
          end
      | None => search_subdirs rest
      end
  end.

Definition find_entry_page (project_dir : Listing) : option (string * string) :=
  match first_pattern project_dir patterns with
  | Some pattern => Some (EmptyString, pattern)
  | None =>
      match search_subdirs project_dir with
      | Some r => Some r
      | None =>
          match first_pattern project_dir fallback_patterns with
          | Some pattern => Some (EmptyString, pattern)
          | None => None
          end
      end
  end.

(** ** Exceptions and a state and error monad *)

Record exn := Exception { exn_class : string; exn_msg : string }.

Inductive Result (A : Type) : Type :=
| Returns (a : A)
| Raises (e : exn).
Arguments Returns {A} a.
Arguments Raises {A} e.

Definition M (S A : Type) : Type := S -> Result A * S.

Definition ret {S A} (a : A) : M S A := fun s => (Returns a, s).
Definition raise {S A} (e : exn) : M S A := fun s => (Raises e, s).
Definition bind {S A B} (m : M S A) (k : A -> M S B) : M S B :=
  fun s => match m s with
           | (Returns a, s') => k a s'
           | (Raises e, s') => (Raises e, s')
           end.
Definition gets {S A} (f : S -> A) : M S A := fun s => (Returns (f s), s).
Definition modify {S} (f : S -> S) : M S unit := fun s => (Returns tt, f s).

(** [try: block except Exception as e: handler(e)]; what the block did to
    the state before it raised stays done. *)
Definition try_except {S A} (block : M S A) (handler : exn -> M S A) : M S A :=
  fun s => match block s with
           | (Returns a, s') => (Returns a, s')
           | (Raises e, s') => handler e s'
           end.

Declare Scope py_scope.
Delimit Scope py_scope with py.
Notation "x <- c ;; k" := (bind c (fun x => k))
  (at level 100, c at next level, right associativity) : py_scope.
Notation "c ;; k" := (bind c (fun _ => k))
  (at level 100, right associativity) : py_scope.

(** ** tenacity's [retry] decorator *)

Module Tenacity.

Definition RetryError : exn := Exception "RetryError" "RetryError".

(** [wait_exponential(multiplier, min, max)] before the retry that follows
    attempt number [attempt]. *)
Definition wait_exponential (multiplier min max : Q) (attempt : nat) : Q :=
  let exp := inject_Z (2 ^ Z.of_nat (attempt - 1)) in
  Qmax (Qmax 0 min) (Qmin (multiplier * exp) max).

Section Retry.
Context {S A : Type}.
Variable sleep : Q -> M S unit.
Variable wait : nat -> Q.

(** The body is called; when it raises and attempts remain, the decorator
    sleeps and calls it again; when none remains it raises [RetryError]. *)
Fixpoint retry_loop (remaining : nat) (attempt : nat) (fn : M S A) : M S A :=
  fun s =>
    match fn s with
    | (Returns a, s') => (Returns a, s')
    | (Raises e, s') =>
        match remaining with
        | O => (Raises RetryError, s')
        | Datatypes.S r =>
            match sleep (wait attempt) s' with
            | (Returns _, s'') => retry_loop r (Datatypes.S attempt) fn s''
            | (Raises e', s'') => (Raises e', s'')
            end
        end
    end.

(** [@retry(stop=stop_after_attempt(n), wait=wait)]. *)
Definition retry (stop_after_attempt : nat) (fn : M S A) : M S A :=
  retry_loop (stop_after_attempt - 1) 1 fn.
End Retry.

End Tenacity.

(** ** The environment of the API client *)

Record Response := {
  status_code : Z;
  retry_after : option Z;   (* the [Retry-After] header *)
  content : string
}.

Inductive OAuthReply :=
| OAuthToken (token : string)
| OAuthFailure (why : string).

(** What the outside world answers: the time that passes before each clock
    event, the reply to each HTTP call, the reply to each token exchange. *)
Record Env := {
  elapse : nat -> Q;
  http : nat -> Result Response;
  oauth : nat -> OAuthReply
}.

(** A ghost trace of what the client did. *)
Inductive Event :=
| EvAuthenticate                      (* [authenticate()] was invoked *)
| EvToken (at_time : Q) (token : string)   (* a token was stored *)
| EvSend (at_time : Q) (bearer : option string) (stored_expiry : Q)
| EvSleep (seconds : Q).

(** ** Configuration ([class Config]) *)

Module Config.
Definition BURST_RATE_LIMIT : Z := 50.
Definition BURST_WINDOW : Q := 10.
Definition DAILY_LIMIT : Z := 10000.
Definition MAX_RETRIES : nat := 5.
Definition RETRY_BACKOFF_BASE : Q := 1 # 2.
Definition TOKEN_EXPIRY_BUFFER : Q := 300.
End Config.

(** ** Objects *)

Record RateLimiter := {
  burst_limit : Z;
  window : Q;
  daily_limit : Z;
  request_times : list Q;     (* the deque, oldest first *)
  daily_count : Z;
  daily_reset_time : Q
}.

Record CodioAPI := {
  dry_run : bool;
  access_token : option string;
  token_expiry : Q;
  rate_limiter : RateLimiter
}.

Record World := {
  clock : Q;                  (* the last reading of the wall clock *)
  ticks : nat;                (* clock events so far *)
  http_calls : nat;
  oauth_calls : nat;
  trace : list Event;         (* newest last *)
  api : CodioAPI
}.

Definition set_api (f : CodioAPI -> CodioAPI) (w : World) : World :=
  {| clock := clock w; ticks := ticks w; http_calls := http_calls w;
     oauth_calls := oauth_calls w; trace := trace w; api := f (api w) |}.

Definition set_rate_limiter (f : RateLimiter -> RateLimiter) (a : CodioAPI)
  : CodioAPI :=
  {| dry_run := dry_run a; access_token := access_token a;
     token_expiry := token_expiry a; rate_limiter := f (rate_limiter a) |}.

Definition set_token (tok : option string) (a : CodioAPI) : CodioAPI :=
  {| dry_run := dry_run a; access_token := tok;
     token_expiry := token_expiry a; rate_limiter := rate_limiter a |}.

Definition set_token_expiry (e : Q) (a : CodioAPI) : CodioAPI :=
  {| dry_run := dry_run a; access_token := access_token a;
     token_expiry := e; rate_limiter := rate_limiter a |}.

Definition set_request_times (l : list Q) (r : RateLimiter) : RateLimiter :=
  {| burst_limit := burst_limit r; window := window r;
     daily_limit := daily_limit r; request_times := l;
     daily_count := daily_count r; daily_reset_time := daily_reset_time r |}.

Definition set_daily (count : Z) (reset : Q) (r : RateLimiter) : RateLimiter :=
  {| burst_limit := burst_limit r; window := window r;
     daily_limit := daily_limit r; request_times := request_times r;
     daily_count := count; daily_reset_time := reset |}.

Definition set_daily_count (count : Z) (r : RateLimiter) : RateLimiter :=
  set_daily count (daily_reset_time r) r.

Definition limiter (w : World) : RateLimiter := rate_limiter (api w).
Definition update_limiter (f : RateLimiter -> RateLimiter) : M World unit :=
  modify (set_api (set_rate_limiter f)).

Definition emit (e : Event) : M World unit :=
  modify (fun w =>
    {| clock := clock w; ticks := ticks w; http_calls := http_calls w;
       oauth_calls := oauth_calls w; trace := trace w ++ [e]; api := api w |}).

Definition Qlt_bool (x y : Q) : bool := negb (Qle_bool y x).

Section Client.
Variable env : Env.

Local Open Scope py_scope.
Local Open Scope Q_scope.

(** [time.time()]: some time has passed since the last clock event. *)
Definition time_time : M World Q :=
  fun w =>
    let t := clock w + elapse env (ticks w) in
    (Returns t,
     {| clock := t; ticks := Datatypes.S (ticks w); http_calls := http_calls w;
        oauth_calls := oauth_calls w; trace := trace w; api := api w |}).

(** [time.sleep(seconds)]: at least [seconds] pass; a negative argument is
    a [ValueError]. *)
Definition time_sleep (seconds : Q) : M World unit :=
  if Qlt_bool seconds 0
  then raise (Exception "ValueError" "sleep length must be non-negative")
  else
    fun w =>
      (Returns tt,
       {| clock := clock w + seconds + elapse env (ticks w);
          ticks := Datatypes.S (ticks w); http_calls := http_calls w;
          oauth_calls := oauth_calls w;
          trace := trace w ++ [EvSleep seconds]; api := api w |}).

(** *** [RateLimiter] (lines 65-123) *)

(** [RateLimiter()] with the defaults of [Config]. *)
Definition RateLimiter_init : M World RateLimiter :=
  t <- time_time ;;
  ret {| burst_limit := Config.BURST_RATE_LIMIT;
         window := Config.BURST_WINDOW;
         daily_limit := Config.DAILY_LIMIT;
         request_times := [];
         daily_count := 0;
         daily_reset_time := t + 86400 |}.

(** [while self.request_times and self.request_times[0] < cutoff:
       self.request_times.popleft()]. *)
Fixpoint popleft_while (cutoff : Q) (times : list Q) : list Q :=
  match times with
  | [] => []
  | t :: rest => if Qlt_bool t cutoff then popleft_while cutoff rest else times
  end.

(** The five blocks of [wait_if_needed], named after the comments that
    head them in the source; [now] is the reading of line 83. *)

(* Reset daily counter if needed *)
Definition reset_daily_counter (now : Q) : M World unit :=
  self <- gets limiter ;;
  if Qle_bool (daily_reset_time self) now
  then update_limiter (set_daily 0 (now + 86400))
  else ret tt.

(* Check daily limit *)
Definition check_daily_limit (now : Q) : M World unit :=
  self <- gets limiter ;;
  if (daily_limit self <=? daily_count self)%Z
  then
    let wait_time := daily_reset_time self - now in
    time_sleep wait_time ;;
    update_limiter (set_daily_count 0) ;;
    t <- time_time ;;
    update_limiter (fun r => set_daily (daily_count r) (t + 86400) r)
  else ret tt.

(* Remove old requests outside the window *)
Definition remove_old_requests (now : Q) : M World unit :=
  self <- gets limiter ;;
  let cutoff := now - window self in
  update_limiter (set_request_times (popleft_while cutoff (request_times self))).

(* Check burst limit *)
Definition check_burst_limit (now : Q) : M World unit :=
  self <- gets limiter ;;
  if (burst_limit self <=? Z.of_nat (length (request_times self)))%Z
  then
    match request_times self with
    | [] => raise (Exception "IndexError" "deque index out of range")
    | oldest :: _ =>
        let wait_time := oldest + window self - now in
        if Qlt_bool 0 wait_time
        then
          time_sleep (wait_time + (1 # 10)) ;;   (* Add small buffer *)
          (* Clean up old requests again after waiting *)
          now <- time_time ;;
          remove_old_requests now
        else ret tt
    end
  else ret tt.

(* Record this request *)
Definition record_request : M World unit :=
  t <- time_time ;;
  update_limiter (fun r => set_request_times (request_times r ++ [t]) r) ;;
  update_limiter (fun r => set_daily_count (daily_count r + 1) r).

Definition wait_if_needed : M World unit :=
  now <- time_time ;;
  reset_daily_counter now ;;
  check_daily_limit now ;;
  remove_old_requests now ;;
  check_burst_limit now ;;
  record_request.

(** *** [CodioAPI]: authentication and requests (lines 133-239) *)

(** [self.session.get(Config.OAUTH_URL, ...)], [raise_for_status] and
    [response.json()] taken together. *)
Definition oauth_get : M World OAuthReply :=
  fun w =>
    (Returns (oauth env (oauth_calls w)),
     {| clock := clock w; ticks := ticks w; http_calls := http_calls w;
        oauth_calls := Datatypes.S (oauth_calls w); trace := trace w;
        api := api w |}).

(** The body of [authenticate], lines 151-179. *)
Definition authenticate_body : M World unit :=
  self <- gets api ;;
  if dry_run self then ret tt
  else
    try_except
      (reply <- oauth_get ;;
       match reply with
       | OAuthFailure why => raise (Exception "RequestException" why)
       | OAuthToken tok =>
           modify (set_api (set_token (Some tok))) ;;
           t <- time_time ;;
           modify (set_api
             (set_token_expiry (t + 3600 - Config.TOKEN_EXPIRY_BUFFER))) ;;
           emit (EvToken t tok)
       end)
      (fun e => raise e).

Definition authenticate : M World unit :=
  emit EvAuthenticate ;;
  Tenacity.retry time_sleep (Tenacity.wait_exponential 1 4 10) 3
    authenticate_body.

Definition _ensure_authenticated : M World unit :=
  t <- time_time ;;
  self <- gets api ;;
  if Qle_bool (token_expiry self) t then authenticate else ret tt.

(** [self.session.request(..., headers=headers, ...)]: the request leaves
    at the next clock event, carrying [bearer]. *)
Definition session_request (bearer : option string) : M World Response :=
  t <- time_time ;;
  self <- gets api ;;
  emit (EvSend t bearer (token_expiry self)) ;;
  fun w =>
    (http env (http_calls w),
     {| clock := clock w; ticks := ticks w;
        http_calls := Datatypes.S (http_calls w);
        oauth_calls := oauth_calls w; trace := trace w; api := api w |}).

Definition raise_for_status (r : Response) : M World unit :=
  if ((400 <=? status_code r) && (status_code r <? 600))%Z
  then raise (Exception "HTTPError" "HTTP error")
  else ret tt.

Inductive Reply :=
| EmptyDict
| NoneValue
| Json (body : string)
| RawResponse (r : Response).

(** Lines 212-239: what [request] does with the first response. *)
Definition handle_response (stream : bool) (response : Response) : M World Reply :=
  (* Handle 401 *)
  response <-
    (if (status_code response =? 401)%Z
     then
       authenticate ;;
       self <- gets api ;;
       session_request (access_token self)
     else ret response) ;;
  (* Handle 429 (rate limit) *)
  if (status_code response =? 429)%Z
  then
    let seconds := match retry_after response with
                   | Some n => n
                   | None => 10%Z
                   end in
    time_sleep (inject_Z seconds) ;;
    raise (Exception "RequestException" "Rate limited, retrying")
  else
    raise_for_status response ;;
    ret (if stream then RawResponse response
         else if Py.truthy (content response) then Json (content response)
              else EmptyDict).

(** The body of [request], lines 192-239. *)
Definition request_body (stream : bool) : M World Reply :=
  self <- gets api ;;
  if dry_run self then ret (if stream then NoneValue else EmptyDict)
  else
    _ensure_authenticated ;;
    wait_if_needed ;;
    self <- gets api ;;
    response <- session_request (access_token self) ;;
    handle_response stream response.

Definition request (stream : bool) : M World Reply :=
  Tenacity.retry time_sleep
    (Tenacity.wait_exponential Config.RETRY_BACKOFF_BASE 4 60)
    Config.MAX_RETRIES (request_body stream).

(** [CodioAPI(client_id, client_secret, dry_run)]. *)
Definition CodioAPI_init (dry : bool) : M World unit :=
  rl <- RateLimiter_init ;;
  modify (set_api (fun _ =>
    {| dry_run := dry; access_token := None; token_expiry := 0;
       rate_limiter := rl |})) ;;
  if dry then ret tt else authenticate.

End Client.

(** ** Archive extraction ([codio_downloader_images.py], lines 322-404) *)

Inductive Level := DEBUG | INFO | WARNING | ERROR.

(** What reading the data of a member gives: all of it, or an error after
    some of it (or none of it) reached the disk. *)
Inductive Payload :=
| Intact (data : string)
| Damaged (partial : option string).

Inductive Kind :=
| REGTYPE (payload : Payload)
| DIRTYPE.

Record TarInfo := { name : string; kind : Kind }.

(** The disk: regular files and directories by resolved path (there are no
    symbolic links), and the log of the client. *)
Record Disk := {
  files : gmap (list string) string;
  dirs : gset (list string);
  log : list (Level * string)
}.

Definition logger (lvl : Level) (msg : string) : M Disk unit :=
  modify (fun d =>
    {| files := files d; dirs := dirs d; log := log d ++ [(lvl, msg)] |}).

(** The path and the directories above it. *)
Definition self_and_parents (p : list string) : gset (list string) :=
  list_to_set (List.map (fun n => List.firstn n p) (List.seq 0 (Datatypes.S (length p)))).

(** A regular file lies at [p]. *)
Definition is_file (p : list string) (d : Disk) : bool :=
  bool_decide (is_Some (files d !! p)).

(** A regular file lies at [p] or above it. *)
Definition file_at_or_above (p : list string) (d : Disk) : bool :=
  existsb (fun n => is_file (List.firstn n p) d)
    (List.seq 0 (Datatypes.S (length p))).

(** [p.mkdir(parents=True, exist_ok=True)] and [os.makedirs]: the missing
    directories are made and an existing directory is accepted; a regular
    file at the path or above it is an error. *)
Definition mkdir_parents (p : list string) : M Disk unit :=
  fun d =>
    if is_file p d
    then (Raises (Exception "FileExistsError" "File exists"), d)
    else if file_at_or_above p d
    then (Raises (Exception "NotADirectoryError" "Not a directory"), d)
    else
      (Returns tt,
       {| files := files d; dirs := dirs d ∪ self_and_parents p; log := log d |}).

(** Writing a regular file as [tarfile] does: the directories above it are
    made first, then the file is opened for writing, which replaces a
    regular file and fails on a directory. *)
Definition write_file (p : list string) (data : string) : M Disk unit :=
  fun d =>
    if file_at_or_above (List.removelast p) d
    then (Raises (Exception "NotADirectoryError" "Not a directory"), d)
    else if bool_decide (p ∈ dirs d)
    then (Raises (Exception "IsADirectoryError" "Is a directory"), d)
    else
      (Returns tt,
       {| files := <[p := data]> (files d);
          dirs := dirs d ∪ self_and_parents (List.removelast p);
          log := log d |}).

Definition unlink (p : list string) : M Disk unit :=
  modify (fun d =>
    {| files := delete p (files d); dirs := dirs d; log := log d |}).

Definition outside (root : list string) (p : list string) : Prop :=
  ¬ root `prefix_of` p.

(** [p.exists()]. *)
Definition path_exists (p : list string) (d : Disk) : bool :=
  bool_decide (p ∈ dirs d) || bool_decide (is_Some (files d !! p)).

(** [shutil.rmtree(p)]: the directory goes with all that lies below it; on
    a regular file it raises. *)
Definition rmtree (p : list string) : M Disk unit :=
  fun d =>
    if bool_decide (is_Some (files d !! p))
    then (Raises (Exception "NotADirectoryError" "Not a directory"), d)
    else
      (Returns tt,
       {| files := filter (fun kv => outside p kv.1) (files d);
          dirs := filter (outside p) (dirs d);
          log := log d |}).

(** [PurePath.suffix] of a file name: from the last dot on, when that dot
    is neither the first nor the last character. *)
Fixpoint from_last_dot (s : string) : option string :=
  match s with
  | EmptyString => None
  | String c s' =>
      match from_last_dot s' with
      | Some r => Some r
      | None => if Ascii.eqb c "." then Some s else None
      end
  end.

Definition suffix_of_name (nm : string) : string :=
  match from_last_dot nm with
  | Some suf =>
      if ((1 <? String.length suf) && (String.length suf <? String.length nm))%nat
      then suf else EmptyString
  | None => EmptyString
  end.

Definition path_name (p : PurePath.t) : string :=
  List.last (PurePath.parts p) EmptyString.

Definition suffix (p : PurePath.t) : string := suffix_of_name (path_name p).

(** [p.with_suffix(suf)]. *)
Definition with_suffix (p : PurePath.t) (suf : string) : Result PurePath.t :=
  let nm := path_name p in
  if Py.truthy nm
  then
    let stem := String.substring 0 (String.length nm - String.length (suffix_of_name nm)) nm in
    Returns {| PurePath.absolute := PurePath.absolute p;
               PurePath.parts := List.removelast (PurePath.parts p) ++ [stem +:+ suf] |}
  else Raises (Exception "ValueError" "path has an empty name").

Section Extraction.
Variable cwd : list string.                       (* the working directory *)
Variable untar : string -> Result (list TarInfo).  (* [tarfile.open(...).getmembers()] *)
Variable unzstd : string -> Result string.         (* the [zstd -d] tool *)

Local Open Scope py_scope.

Definition resolved (p : PurePath.t) : list string := PurePath.resolve cwd p.

(** [Path(dest_dir) / member.name], resolved. *)
Definition member_target (dest_dir : PurePath.t) (member : TarInfo) : list string :=
  resolved (PurePath.joinpath dest_dir (name member)).

(** [tar.extract(member, dest_dir)]: the member lands at the resolved join
    of the destination and its name, when what is on the disk lets it: a
    regular file above the target, a directory where a file is to be
    written or a regular file where a directory is to be made raise (the
    last as [tarfile] does since Python 3.12). *)
Definition tar_extract (member : TarInfo) (dest_dir : PurePath.t) : M Disk unit :=
  let target := member_target dest_dir member in
  match kind member with
  | DIRTYPE => mkdir_parents target
  | REGTYPE (Intact data) => write_file target data
  | REGTYPE (Damaged partial) =>
      match partial with
      | Some data => write_file target data
      | None => ret tt
      end ;;
      raise (Exception "ReadError" "unexpected end of data")
  end.

(** Lines 387-391. *)
Definition should_exclude (exclude_globs : list string) (member_name : string) : bool :=
  existsb
    (fun pattern =>
       Py.contains pattern member_name || Py.startswith member_name pattern)
    exclude_globs.

(** Containment, line 382. *)
Definition contained (dest_dir : PurePath.t) (member_name : string) : bool :=
  PurePath.is_relative_to
    (resolved (PurePath.joinpath dest_dir member_name))
    (resolved dest_dir).

(** One turn of the loop of lines 379-402. *)
Definition extract_member (dest_dir : PurePath.t) (exclude_globs : list string)
    (member : TarInfo) : M Disk unit :=
  (* Security check for path traversal *)
  if negb (contained dest_dir (name member))
  then logger WARNING ("Skipping potentially unsafe path: " +:+ name member)
  else
    (* Check exclusions *)
    if should_exclude exclude_globs (name member)
    then logger DEBUG ("Excluding file: " +:+ name member)
    else
      (* Extract everything else *)
      try_except
        (tar_extract member dest_dir)
        (fun e =>
           logger WARNING
             ("Failed to extract " +:+ name member +:+ ": " +:+ exn_msg e)).

Fixpoint for_each {A} (l : list A) (body : A -> M Disk unit) : M Disk unit :=
  match l with
  | [] => ret tt
  | x :: rest => body x ;; for_each rest body
  end.

(** [tarfile.open(tar_path, 'r')] and [tar.getmembers()]. *)
Definition tarfile_open (tar_path : PurePath.t) : M Disk (list TarInfo) :=
  fun d =>
    match files d !! resolved tar_path with
    | None => (Raises (Exception "FileNotFoundError" "No such file"), d)
    | Some bytes => (untar bytes, d)
    end.

Definition default_exclude_globs : list string := [".git"; ".guides"; ".codio"].

(** [if exclude_globs is None: exclude_globs = [...]]. *)
Definition globs_or_default (exclude_globs : option (list string)) : list string :=
  match exclude_globs with
  | None => default_exclude_globs
  | Some globs => globs
  end.

Definition _extract_tar_inclusive (dry : bool) (tar_path dest_dir : PurePath.t)
    (exclude_globs : option (list string)) : M Disk unit :=
  if dry
  then logger DEBUG "[DRY RUN] Would extract"
  else
    let exclude_globs := globs_or_default exclude_globs in
    mkdir_parents (resolved dest_dir) ;;
    members <- tarfile_open tar_path ;;
    for_each members (extract_member dest_dir exclude_globs) ;;
    logger DEBUG "Extracted (including all assets)".

(** [zstd -d zst_path -o tar_path]. *)
Definition _decompress_zstd (dry : bool) (zst_path tar_path : PurePath.t) : M Disk unit :=
  if dry
  then logger DEBUG "[DRY RUN] Would decompress"
  else
    fun d =>
      match files d !! resolved zst_path with
      | None =>
          (Raises (Exception "CalledProcessError" "zstd failed"),
           {| files := files d; dirs := dirs d;
              log := log d ++ [(ERROR, "Decompression failed")] |})
      | Some bytes =>
          match unzstd bytes with
          | Returns tar_bytes =>
              (Returns tt,
               {| files := <[resolved tar_path := tar_bytes]> (files d);
                  dirs := dirs d;
                  log := log d ++ [(DEBUG, "Decompressed")] |})
          | Raises e =>
              (Raises e,
               {| files := files d; dirs := dirs d;
                  log := log d ++ [(ERROR, "Decompression failed")] |})
          end
      end.

Definition lift_result {A} (r : Result A) : M Disk A := fun d => (r, d).

(** Lines 326-328: an existing destination is removed, then created. *)
Definition recreate_destination (dest_dir : PurePath.t) : M Disk unit :=
  present <- gets (path_exists (resolved dest_dir)) ;;
  (if present : bool then rmtree (resolved dest_dir) else ret tt) ;;
  mkdir_parents (resolved dest_dir).

(** Lines 330-340: the archive is decompressed when needed and unpacked. *)
Definition unpack_archive (dry : bool) (zst_file dest_dir : PurePath.t) : M Disk unit :=
  (* Handle .zst files (need decompression first) *)
  if String.eqb (suffix zst_file) ".zst"
  then
    tar_file <- lift_result (with_suffix zst_file ".tar") ;;
    _decompress_zstd dry zst_file tar_file ;;
    _extract_tar_inclusive dry tar_file dest_dir None ;;
    present <- gets (path_exists (resolved tar_file)) ;;
    if present : bool then unlink (resolved tar_file) else ret tt
  else
    if String.eqb (suffix zst_file) ".tar"
    then _extract_tar_inclusive dry zst_file dest_dir None
    else raise (Exception "ValueError" "Unsupported archive format").

Definition _extract_assignment (dry : bool) (zst_file dest_dir : PurePath.t) : M Disk unit :=
  logger DEBUG "Extracting" ;;
  recreate_destination dest_dir ;;
  unpack_archive dry zst_file dest_dir.

End Extraction.

(** ** The student jobs ([publish_about_me.py], lines 244-422) *)

Record Student := {
  student_name : string;              (* [student['name']] *)
  student_id : string;                (* [student['id']] *)
  student_username : option string    (* [student.get('username')] *)
}.

Record PublishConfig := {
  project_root : PurePath.t;
  build_dir_setting : string          (* [data.get('build_dir', 'build')] *)
}.

Definition build_dir (config : PublishConfig) : PurePath.t :=
  PurePath.joinpath (project_root config) (build_dir_setting config).

(** A manifest entry; [errors] is [None] when the key is absent. *)
Record StudentResult := {
  section : string;
  full_name : string;
  display_name_short : string;
  username : string;
  slug : string;
  codio_id : string;
  local_path : option string;
  entry_page : option string;
  entry_page_path : option string;
  entry_page_file : option string;
  warnings : list string;
  errors : option (list string);
  download_timestamp : Q
}.

(** What one job sees of the outside: the outcome of each successive run of
    lines 283-291, where the student directory is cleaned and
    [codio_api.download_student_assignment] downloads and extracts into it
    (an exception, or the tree left in the student directory), and the
    clock.  The interleaving of jobs on the shared client is not part of
    the model. *)
Record JobWorld := {
  downloads : nat -> Result Listing;
  download_calls : nat;
  job_clock : Q;
  backoffs : list Q;                  (* the waits of the retry decorator *)
  job_log : list (Level * string)
}.

Definition download_student_assignment
    (course_id assignment_id student_id : string) (dest_path : PurePath.t)
  : M JobWorld Listing :=
  fun w =>
    (downloads w (download_calls w),
     {| downloads := downloads w;
        download_calls := Datatypes.S (download_calls w);
        job_clock := job_clock w; backoffs := backoffs w;
        job_log := job_log w |}).

Definition job_sleep (seconds : Q) : M JobWorld unit :=
  modify (fun w =>
    {| downloads := downloads w; download_calls := download_calls w;
       job_clock := job_clock w; backoffs := backoffs w ++ [seconds];
       job_log := job_log w |}).

Definition job_logger (lvl : Level) (msg : string) : M JobWorld unit :=
  modify (fun w =>
    {| downloads := downloads w; download_calls := download_calls w;
       job_clock := job_clock w; backoffs := backoffs w;
       job_log := job_log w ++ [(lvl, msg)] |}).

Definition lift_option {S A} (o : option A) (e : exn) : M S A :=
  match o with
  | Some a => ret a
  | None => raise e
  end.

Section Jobs.
Variable config : PublishConfig.

Local Open Scope py_scope.

(** [student.get('username', '')], then the slug of the name when empty. *)
Definition job_username (student : Student) : string :=
  let username := match student_username student with
                  | Some u => u
                  | None => EmptyString
                  end in
  if negb (Py.truthy username) then slugify (student_name student)
  else username.

Definition job_slug (student : Student) : string :=
  sanitize_name (job_username student).

Definition student_dir (section : string) (student : Student) : PurePath.t :=
  let section_dir := PurePath.joinpath (build_dir config) section in
  PurePath.joinpath section_dir (job_slug student).

(** The body of [download_student_project], lines 264-343. *)
Definition download_student_project_body
    (section : string) (student : Student) (assignment_id course_id : string)
  : M JobWorld StudentResult :=
  let student_name := student_name student in
  let student_id := student_id student in
  let username := job_username student in
  let student_slug := sanitize_name username in
  let display_name := parse_display_name student_name in
  let student_dir := student_dir section student in
  job_logger INFO ("Downloading " +:+ student_name) ;;
  try_except
    (tree <- download_student_assignment course_id assignment_id student_id
               student_dir ;;
     (* Find entry page *)
     let entry_page_result := find_entry_page tree in
     let warnings :=
       match entry_page_result with
       | Some _ => []
       | None => ["No index.html or entry page found"]
       end in
     let full_entry_path :=
       match entry_page_result with
       | Some (entry_page_path, entry_page_file) =>
           Some (if Py.truthy entry_page_path
                 then entry_page_path +:+ "/" +:+ entry_page_file
                 else entry_page_file)
       | None => None
       end in
     match entry_page_result with
     | Some _ => job_logger DEBUG "Found entry page"
     | None => job_logger WARNING ("No entry page found for " +:+ student_name)
     end ;;
     (* Create student metadata *)
     relative <- lift_option
       (PurePath.relative_to student_dir (project_root config))
       (Exception "ValueError" "path is not in the subpath of the project root") ;;
     now <- gets job_clock ;;
     ret {| section := section;
            full_name := student_name;
            display_name_short := display_name;
            username := username;
            slug := student_slug;
            codio_id := student_id;
            local_path := Some (PurePath.str relative);
            entry_page := full_entry_path;
            entry_page_path := option_map fst entry_page_result;
            entry_page_file := option_map snd entry_page_result;
            warnings := warnings;
            errors := None;
            download_timestamp := now |})
    (fun e =>
       let error_msg :=
         "Failed to download " +:+ student_name +:+ ": " +:+ exn_msg e in
       job_logger ERROR error_msg ;;
       now <- gets job_clock ;;
       ret {| section := section;
              full_name := student_name;
              display_name_short := display_name;
              username := username;
              slug := student_slug;
              codio_id := student_id;
              local_path := None;
              entry_page := None;
              entry_page_path := None;
              entry_page_file := None;
              warnings := [];
              errors := Some [error_msg];
              download_timestamp := now |}).

(** [@retry(stop=stop_after_attempt(3),
            wait=wait_exponential(multiplier=1, min=4, max=10))]. *)
Definition download_student_project
    (section : string) (student : Student) (assignment_id course_id : string)
  : M JobWorld StudentResult :=
  Tenacity.retry job_sleep (Tenacity.wait_exponential 1 4 10) 3
    (download_student_project_body section student assignment_id course_id).

(** One enqueued job: [(section, student, assignment_id, course_id)]. *)
Definition Task : Type := string * Student * string * string.

(** [executor.submit(self.download_student_project, ...)]: the future of
    task number [i], run in the world [worlds i]. *)
Definition submit (worlds : nat -> JobWorld) (i : nat) (task : Task)
  : Result StudentResult :=
  let '(section, student, assignment_id, course_id) := task in
  fst (download_student_project section student assignment_id course_id
         (worlds i)).

(** Lines 406-414: the futures are visited in the order of completion; a
    result is appended, an exception is logged and dropped. *)
Definition collect_results (futures : list (Result StudentResult))
    (as_completed : list nat) : list StudentResult :=
  List.fold_left
    (fun (results : list StudentResult) (i : nat) =>
       match futures !! i with
       | Some (Returns result) => (results ++ [result])%list
       | _ => results
       end)
    as_completed [].

(** The execution phase of [download_all_students], lines 398-419: the
    list handed to [json.dump]. *)
Definition download_all_students (all_tasks : list Task)
    (worlds : nat -> JobWorld) (as_completed : list nat) : list StudentResult :=
  collect_results (imap (submit worlds) all_tasks) as_completed.

End Jobs.

(** ** Polling an export task ([codio_downloader_images.py], lines 289-303) *)

(** What the loop reads in the reply: [result.get('done')],
    [result.get('error')] and [result['url']]. *)
Record TaskStatus := {
  task_done : bool;
  task_error : option string;
  task_url : option string
}.

(** [return result['url']]. *)
Definition return_url {S} (status : TaskStatus) : M S (option string) :=
  match task_url status with
  | Some url => ret (Some url)
  | None => raise (Exception "KeyError" "url")
  end.

Section Polling.
Variable env : Env.
Variable decode : Reply -> TaskStatus.   (* the reply as a dict *)

Local Open Scope py_scope.
Local Open Scope Q_scope.

(** The [while] loop; [None] when the fuel runs out before the loop ends. *)
Fixpoint poll_download_task (fuel : nat) (start_time max_wait : Q)
  : M World (option string) :=
  match fuel with
  | O => ret None
  | Datatypes.S fuel' =>
      t <- time_time env ;;
      if Qlt_bool (t - start_time) max_wait
      then
        result <- request env false ;;
        let status := decode result in
        if task_done status
        then
          match task_error status with
          | Some error =>
              if Py.truthy error
              then raise (Exception "RuntimeError" ("Export task failed: " +:+ error))
              else return_url status
          | None => return_url status
          end
        else
          time_sleep env (1 # 2) ;;
          poll_download_task fuel' start_time max_wait
      else raise (Exception "TimeoutError" "Task did not complete")
  end.

Definition _wait_download_task (fuel : nat) (max_wait : Q) : M World (option string) :=
  start_time <- time_time env ;;
  poll_download_task fuel start_time max_wait.

End Polling.

(** ** The index page ([publish_about_me.py], lines 473-491) *)

(** [sections_data]: a dict, kept in insertion order. *)
Definition SectionsData : Type := list (string * list StudentResult).

(** [if section not in sections_data: sections_data[section] = []] and
    [sections_data[section].append(student)]. *)
Fixpoint append_to_section (sec : string) (student : StudentResult)
    (sections_data : SectionsData) : SectionsData :=
  match sections_data with
  | [] => [(sec, [student])]
  | (k, students) :: rest =>
      if String.eqb k sec then (k, (students ++ [student])%list) :: rest
      else (k, students) :: append_to_section sec student rest
  end.

(** ['errors' in student]. *)
Definition has_errors (student : StudentResult) : bool :=
  match errors student with Some _ => true | None => false end.

(** Organize students by section, lines 478-486. *)
Definition organize (manifest : list StudentResult) : SectionsData :=
  List.fold_left
    (fun sections_data student =>
       if has_errors student then sections_data
       else append_to_section (section student) student sections_data)
    manifest [].

(** [list.sort(key=...)] and [sorted]: a stable sort on string keys; the
    bytes of two strings compare as their code points do. *)
Fixpoint insert_by {A} (key : A -> string) (x : A) (l : list A) : list A :=
  match l with
  | [] => [x]
  | y :: rest =>
      if String.leb (key x) (key y) then x :: l else y :: insert_by key x rest
  end.

Definition sort_by {A} (key : A -> string) (l : list A) : list A :=
  List.fold_right (insert_by key) [] l.

(** [sorted_sections], the value handed to the template: the students of
    each section by display name (lines 488-490), the sections by name
    (line 493; no two items share a name, so the lists are never
    compared). *)
Definition sorted_sections (manifest : list StudentResult) : SectionsData :=
  sort_by fst
    (List.map (fun '(sec, students) => (sec, sort_by display_name_short students))
       (organize manifest)).

(** ** Link validation ([publish_about_me.py], lines 590-649) *)

(** One record of [validation_results['details']], without the URL and the
    message. *)
Record Detail := {
  detail_student : string;
  detail_section : string;
  detail_status : string
}.

Record ValidationResults := {
  total : nat;
  passed : nat;
  failed : nat;
  missing_entry : nat;
  details : list Detail
}.

(** [not student.get('entry_page_file')]. *)
Definition no_entry_file (student : StudentResult) : bool :=
  match entry_page_file student with
  | Some f => negb (Py.truthy f)
  | None => true
  end.

Definition detail_of (student : StudentResult) (status : string) : Detail :=
  {| detail_student := display_name_short student;
     detail_section := section student;
     detail_status := status |}.

Section Validation.
(** [requests.head(url, timeout=...)] on the page of a student: the status
    code, or the exception of the transport. *)
Variable requests_head : StudentResult -> Result Z.

(** One turn of the loop of lines 608-649. *)
Definition validate_link (validation_results : ValidationResults)
    (student : StudentResult) : ValidationResults :=
  if has_errors student || no_entry_file student
  then
    {| total := total validation_results;
       passed := passed validation_results;
       failed := failed validation_results;
       missing_entry := missing_entry validation_results + 1;
       details := details validation_results
                  ++ [detail_of student "missing_entry"] |}
  else
    let ok :=
      match requests_head student with
      | Returns status_code => ((200 <=? status_code) && (status_code <? 400))%Z
      | Raises _ => false
      end in
    {| total := total validation_results + 1;
       passed := passed validation_results + (if ok then 1 else 0);
       failed := failed validation_results + (if ok then 0 else 1);
       missing_entry := missing_entry validation_results;
       details := details validation_results
                  ++ [detail_of student (if ok then "pass" else "fail")] |}.

(** The counters and the details that [validate_student_links] returns. *)
Definition validate_student_links (manifest : list StudentResult) : ValidationResults :=
  List.fold_left validate_link manifest
    {| total := 0; passed := 0; failed := 0; missing_entry := 0; details := [] |}.

End Validation.

(** * Vocabulary of the statements *)

(** ** Entry pages *)

(** A place the search looks at: the relative path it reports, the listing
    of the directory, the candidate names tried there. *)
Definition Visit : Type := string * Listing * list string.

Definition visible_visits (rel : string -> string) (l : Listing) : list Visit :=
  List.flat_map
    (fun '(n, x) =>
       match visible_dir n x with
       | Some es => [(rel n, es, patterns)]
       | None => []
       end) l.

(** Each visible subdirectory, followed at once by its own visible
    subdirectories. *)
Definition subdir_visits (l : Listing) : list Visit :=
  List.flat_map
    (fun '(n, x) =>
       match visible_dir n x with
       | Some es => (n, es, patterns) :: visible_visits (fun n2 => n +:+ "/" +:+ n2) es
       | None => []
       end) l.

(** The order in which the code visits. *)
Definition visit_order (project_dir : Listing) : list Visit :=
  [(EmptyString, project_dir, patterns)] ++ subdir_visits project_dir
  ++ [(EmptyString, project_dir, fallback_patterns)].

Fixpoint first_hit (visits : list Visit) : option (string * string) :=
  match visits with
  | [] => None
  | (rel, es, pats) :: rest =>
      match first_pattern es pats with
      | Some pattern => Some (rel, pattern)
      | None => first_hit rest
      end
  end.

Definition two_level_visits (l : Listing) : list Visit :=
  List.flat_map
    (fun '(n, x) =>
       match visible_dir n x with
       | Some es => visible_visits (fun n2 => n +:+ "/" +:+ n2) es
       | None => []
       end) l.

(** The search as the specification words it: the root, then every
    directory one level down, then every directory two levels down, then
    the fallback names at the root. *)
Definition find_entry_page_by_levels (project_dir : Listing) : option (string * string) :=
  first_hit ([(EmptyString, project_dir, patterns)]
             ++ visible_visits (fun n => n) project_dir
             ++ two_level_visits project_dir
             ++ [(EmptyString, project_dir, fallback_patterns)]).

Definition page : Node := File "<html></html>".

(** [a/x/index.html] and [b/index.html], [a] listed first. *)
Definition nested_first : Listing :=
  [ ("a", Dir [("x", Dir [("index.html", page)])]);
    ("b", Dir [("index.html", page)]) ].

(** [assets/logo.png] and [subdir/index.html]. *)
Definition only_in_subdir : Listing :=
  [ ("assets", Dir [("logo.png", File "png")]);
    ("subdir", Dir [("index.html", page); ("style.css", File "css")]) ].

(** ** Slugs *)

Definition safe_char (c : ascii) : Prop :=
  c <> " "%char /\ ~ In c forbidden_chars /\ (Py.code c < 128)%N.

(** ** Jobs *)

(** The entry of a job whose download raised [e]. *)
Definition failed_entry (sec : string) (st : Student) (e : exn) (now : Q)
  : StudentResult :=
  {| section := sec; full_name := student_name st;
     display_name_short := parse_display_name (student_name st);
     username := job_username st; slug := job_slug st;
     codio_id := student_id st;
     local_path := None; entry_page := None; entry_page_path := None;
     entry_page_file := None; warnings := [];
     errors := Some ["Failed to download " +:+ student_name st +:+ ": " +:+ exn_msg e];
     download_timestamp := now |}.

Definition demo_config : PublishConfig :=
  {| project_root := PurePath.parse "/srv/about-me"; build_dir_setting := "build" |}.

Definition ada : Student :=
  {| student_name := "Ada Lovelace"; student_id := "s-1";
     student_username := Some "ada" |}.
Definition grace : Student :=
  {| student_name := "Grace Hopper"; student_id := "s-2";
     student_username := None |}.


Definition timeout_exn : exn := Exception "TimeoutError" "Task did not complete".

(** The first download times out, every later one would succeed. *)
Definition transient_world : JobWorld :=
  {| downloads := fun n => match n with
                           | O => Raises timeout_exn
                           | _ => Returns only_in_subdir
                           end;
     download_calls := 0; job_clock := 100%Q; backoffs := []; job_log := [] |}.

(** Every download fails. *)
Definition failing_world : JobWorld :=
  {| downloads := fun _ => Raises timeout_exn;
     download_calls := 0; job_clock := 100%Q; backoffs := []; job_log := [] |}.

(** The download succeeds and leaves a project without any entry page. *)
Definition pageless_world : JobWorld :=
  {| downloads := fun _ => Returns [("notes.txt", File "todo")];
     download_calls := 0; job_clock := 100%Q; backoffs := []; job_log := [] |}.

Definition healthy_world : JobWorld :=
  {| downloads := fun _ => Returns only_in_subdir;
     download_calls := 0; job_clock := 100%Q; backoffs := []; job_log := [] |}.

(** ** Extraction *)

(** The disk after one more log record. *)
Definition warn (lvl : Level) (msg : string) (d : Disk) : Disk :=
  {| files := files d; dirs := dirs d; log := (log d ++ [(lvl, msg)])%list |}.


(** The same files and directories; the logs may differ. *)
Definition same_disk (d1 d2 : Disk) : Prop :=
  files d1 = files d2 /\ dirs d1 = dirs d2.

(** Two disks that differ at most below [root]. *)
Definition agree_outside (root : list string) (d1 d2 : Disk) : Prop :=
  (forall p, outside root p -> files d1 !! p = files d2 !! p)
  /\ (forall p, outside root p -> p ∈ dirs d1 <-> p ∈ dirs d2)
  /\ log d1 = log d2.

(** [p] is a directory of the disk: the path and every path above it are
    directories, none of them a regular file. *)
Definition is_directory (p : list string) (d : Disk) : Prop :=
  forall q, q `prefix_of` p -> q ∈ dirs d /\ files d !! q = None.

(** What stands in the way of a member at its target: a regular file above
    the target, a directory where a file is to be written, a regular file
    where a directory is to be made. *)
Definition blocked (target : list string) (k : Kind) (d : Disk) : bool :=
  match k with
  | REGTYPE _ =>
      file_at_or_above (List.removelast target) d || bool_decide (target ∈ dirs d)
  | DIRTYPE => file_at_or_above target d
  end.


Definition demo_cwd : list string := ["srv"; "about-me"].

(** An archive with a member that climbs out of the destination, a member
    whose data cannot be read, and two sound ones. *)
Definition demo_members : list TarInfo :=
  [ {| name := "site/index.html"; kind := REGTYPE (Intact "<html>") |};
    {| name := "../../etc/passwd"; kind := REGTYPE (Intact "root::0") |};
    {| name := "site/photo.png"; kind := REGTYPE (Damaged (Some "PN")) |};
    {| name := "site/style.css"; kind := REGTYPE (Intact "body{}") |} ].

Definition demo_untar (bytes : string) : Result (list TarInfo) :=
  Returns demo_members.



Definition demo_unzstd (bytes : string) : Result string := Returns "tar".

Definition demo_dest : PurePath.t := PurePath.parse "build/7A/ada".
Definition demo_tar : PurePath.t := PurePath.parse "build/7A/ada.tar".

(** The archive is on the disk and the destination holds a stale file. *)
Definition demo_disk (stale : string) : Disk :=
  {| files := {[ ["srv"; "about-me"; "build"; "7A"; "ada.tar"] := "tar";
                 ["srv"; "about-me"; "build"; "7A"; "ada"; "old.html"] := stale ]};
     dirs := self_and_parents ["srv"; "about-me"; "build"; "7A"; "ada"];
     log := [] |}.

(** ** The rate limiter *)

(** [t] lies in the window of length [W] that ends at [t_rec]. *)
Definition in_window (W t_rec t : Q) : bool :=
  Qle_bool (t_rec - W) t && Qle_bool t t_rec.

(** The recorded timestamps in the window that ends at [t_rec]. *)
Definition recent_requests (rl : RateLimiter) (t_rec : Q) : nat :=
  length (List.filter (in_window (window rl) t_rec) (request_times rl)).

(** [n] calls of [wait_if_needed], one after the other. *)
Fixpoint calls (env : Env) (n : nat) (w : World) : Result unit * World :=
  match n with
  | O => (Returns tt, w)
  | Datatypes.S k =>
      match calls env k w with
      | (Returns _, w') => wait_if_needed env w'
      | (Raises e, w') => (Raises e, w')
      end
  end.

(** The times at which the first [n] calls were let through, the oldest
    first: what each call records on line 122. *)
Fixpoint dispatched (env : Env) (n : nat) (w : World) : list Q :=
  match n with
  | O => []
  | Datatypes.S k => (dispatched env k w ++ [clock (calls env (Datatypes.S k) w).2])%list
  end.

(** Every timestamp of the history that is no longer in the deque left the
    window. *)
Definition history_inv (history : list Q) (w : World) : Prop :=
  exists dropped,
    history = (dropped ++ request_times (limiter w))%list
    /\ forall x, In x dropped -> (x < clock w - window (limiter w))%Q.

(** What the daily bookkeeping leaves alone. *)
Definition burst_frame (w w' : World) : Prop :=
  request_times (limiter w') = request_times (limiter w)
  /\ burst_limit (limiter w') = burst_limit (limiter w)
  /\ window (limiter w') = window (limiter w)
  /\ (clock w <= clock w')%Q.

(** The invariant between calls: the deque holds at most [L] timestamps, or
    one more whose oldest already left the window. *)
Definition burst_inv (L : Z) (w : World) : Prop :=
  burst_limit (limiter w) = L
  /\ ((Z.of_nat (length (request_times (limiter w))) <= L)%Z
      \/ exists h rest, request_times (limiter w) = h :: rest
           /\ Z.of_nat (length rest) = L
           /\ (h < clock w - window (limiter w))%Q).

Definition ok_response : Response :=
  {| status_code := 200; retry_after := None; content := "{}" |}.

(** A hundredth of a second passes before every clock event. *)
Definition steady_env : Env :=
  {| elapse := fun _ => (1 # 100)%Q;
     http := fun _ => Returns ok_response;
     oauth := fun _ => OAuthToken "token-2" |}.

(** A client just built: no request yet, no token. *)
Definition fresh_world : World :=
  {| clock := 0%Q; ticks := 0; http_calls := 0; oauth_calls := 0; trace := [];
     api := {| dry_run := false; access_token := None; token_expiry := 0%Q;
               rate_limiter :=
                 {| burst_limit := Config.BURST_RATE_LIMIT;
                    window := Config.BURST_WINDOW;
                    daily_limit := Config.DAILY_LIMIT;
                    request_times := [];
                    daily_count := 0;
                    daily_reset_time := 86400%Q |} |} |}.

(** Fifty calls in the first second; the next call comes ten seconds to the
    tick after the first one and its two readings of the clock coincide. *)
Definition stalling_env : Env :=
  {| elapse := fun k => if (k <? 100)%nat then (1 # 100)%Q
                        else if (k =? 100)%nat then (902 # 100)%Q
                        else if (k =? 101)%nat then 0%Q else (1 # 100)%Q;
     http := fun _ => Returns ok_response;
     oauth := fun _ => OAuthToken "token-2" |}.

(** ** Tokens *)

Definition is_send (e : Event) : bool :=
  match e with EvSend _ _ _ => true | _ => false end.
Definition is_authenticate (e : Event) : bool :=
  match e with EvAuthenticate => true | _ => false end.



Definition calm (e : Event) : Prop :=
  is_send e = false /\ is_authenticate e = false.

(** How a computation may move the world: time does not run backwards, the
    trace grows by calm events, and the token stays when [keep_token]. *)
Definition step (keep_token : bool) (w w' : World) : Prop :=
  dry_run (api w') = dry_run (api w)
  /\ (clock w <= clock w')%Q
  /\ (exists ev, trace w' = (trace w ++ ev)%list /\ Forall calm ev)
  /\ (keep_token = true ->
      access_token (api w') = access_token (api w)
      /\ token_expiry (api w') = token_expiry (api w)).


Definition respects {A} (R : World -> World -> Prop) (m : M World A) : Prop :=
  forall w r w', m w = (r, w') -> R w w'.








(** ** Names and slugs, continued *)

Definition not_space (c : ascii) : bool := negb (Py.isspace c).

(** An ASCII character that is not white space. *)
Definition plain_word_char (c : ascii) : bool := Py.is_ascii c && not_space c.

(** Two dashes in a row. *)
Fixpoint adjacent_dashes (s : string) : bool :=
  match s with
  | String a ((String b _) as rest) =>
      (Ascii.eqb a "-" && Ascii.eqb b "-") || adjacent_dashes rest
  | _ => false
  end.

Definition starts_with_dash (s : string) : bool :=
  match s with String a _ => Ascii.eqb a "-" | _ => false end.

(** Neither ASCII white space nor an ASCII capital. *)
Definition slug_char (c : ascii) : bool :=
  negb (Py.isspace c) && negb (Py.is_upper c).

(** ** Entry pages, continued *)

(** [es] is the listing of the directory [name] of [d], and [name] does not
    start with a dot. *)
Definition visible_subdir (d : Listing) (name : string) (es : Listing) : Prop :=
  In (name, Dir es) d /\ Py.startswith name "." = false.

(** A candidate file [p] lies at the relative path [rel]: at the root under
    an index name or a fallback name, or under an index name in a visible
    directory one or two levels down. *)
Inductive entry_at (d : Listing) : string -> string -> Prop :=
  | entry_root p :
      In p patterns \/ In p fallback_patterns ->
      is_file_in d p = true -> entry_at d EmptyString p
  | entry_sub n es p :
      visible_subdir d n es -> In p patterns ->
      is_file_in es p = true -> entry_at d n p
  | entry_subsub n es n2 es2 p :
      visible_subdir d n es -> visible_subdir es n2 es2 -> In p patterns ->
      is_file_in es2 p = true -> entry_at d (n +:+ "/" +:+ n2) p.

(** ** Extraction, continued *)

Definition unsupported : exn := Exception "ValueError" "Unsupported archive format".

Definition demo_zst : PurePath.t := PurePath.parse "build/7A/ada.zst".
Definition demo_zip : PurePath.t := PurePath.parse "build/7A/ada.zip".


(** ** The rate limiter and the client, continued *)

(** The daily fields of the limiter stay as they are. *)
Definition daily_frame (w w' : World) : Prop :=
  daily_count (limiter w') = daily_count (limiter w)
  /\ daily_limit (limiter w') = daily_limit (limiter w).

(** At most [k] more HTTP calls and [j] more token exchanges. *)
Definition spends {A} (k j : nat) (m : M World A) : Prop :=
  forall w r w', m w = (r, w') ->
    (http_calls w <= http_calls w' <= http_calls w + k)%nat
    /\ (oauth_calls w <= oauth_calls w' <= oauth_calls w + j)%nat.

(** The counters of the outside calls stay as they are. *)
Definition offline (w w' : World) : Prop :=
  http_calls w' = http_calls w /\ oauth_calls w' = oauth_calls w.

(** A limiter built with [burst_limit=0]. *)
Definition zero_burst_world : World :=
  set_api (set_rate_limiter (fun r =>
    {| burst_limit := 0; window := window r; daily_limit := daily_limit r;
       request_times := request_times r; daily_count := daily_count r;
       daily_reset_time := daily_reset_time r |})) fresh_world.

(** The API cannot be reached. *)
Definition down_env : Env :=
  {| elapse := fun _ => (1 # 100)%Q;
     http := fun _ => Raises (Exception "ConnectionError" "unreachable");
     oauth := fun _ => OAuthToken "token-2" |}.

(** Every token exchange is refused. *)
Definition refused_env : Env :=
  {| elapse := fun _ => (1 # 100)%Q;
     http := fun _ => Returns ok_response;
     oauth := fun _ => OAuthFailure "invalid_client" |}.

(** Time does not run backwards. *)
Definition later (w w' : World) : Prop := (clock w <= clock w')%Q.

(** At most [n] more sleeps fit before the deadline. *)
Definition sleeps_left (start_time max_wait : Q) (n : nat) (w : World) : Prop :=
  (max_wait <= clock w - start_time + (1 # 2) * inject_Z (Z.of_nat n))%Q.

(** The export is ready at the first poll. *)
Definition ready_at_once (result : Reply) : TaskStatus :=
  {| task_done := true; task_error := None;
     task_url := Some "https://codio.example/export.zst" |}.

(** ** The index page *)

(** The students of the index page, in the order of the page. *)
Definition listed (sections : SectionsData) : list StudentResult :=
  List.concat (List.map snd sections).

Definition key_le {A} (key : A -> string) (x y : A) : Prop :=
  String.leb (key x) (key y) = true.

(** No section is empty and each student is under the section of the
    manifest entry. *)
Definition well_grouped (d : SectionsData) : Prop :=
  Forall (fun '(sec, students) =>
            students <> [] /\ Forall (fun s => section s = sec) students) d.

(** * Display names *)

Lemma special_lookup_nonempty (s special : string) :
  SPECIAL_NAME_CASES !! s = Some special -> Py.truthy s = true.
Proof. destruct s; [vm_compute; discriminate | reflexivity]. Qed.

Lemma strip_truthy_full (s : string) :
  Py.truthy (Py.strip s) = true -> Py.truthy s = true.
Proof. destruct s; [vm_compute; discriminate | reflexivity]. Qed.

Lemma special_case_precedence (full_name special : string) :
  SPECIAL_NAME_CASES !! Py.strip full_name = Some special ->
  parse_display_name full_name = special.
Proof.
  intros H. unfold parse_display_name.
  pose proof (special_lookup_nonempty _ _ H) as Ht.
  rewrite Ht, (strip_truthy_full _ Ht). simpl. rewrite H. reflexivity.
Qed.

(** C9. "Jonathan Smith" becomes "Julian S", "Michael Holland" becomes
    "Micky H" and "Shiyang" becomes "April"; a full name found in the table
    of overrides gets the entry of the table, whatever the generic rule
    would give (for "Michael Holland" it would give "Michael H"). *)
Theorem display_name_examples :
  parse_display_name "Jonathan Smith" = "Julian S" /\
  parse_display_name "Michael Holland" = "Micky H" /\
  parse_display_name "Shiyang" = "April" /\
  generic_display_name "Michael Holland" = "Michael H" /\
  (forall full_name special : string,
      SPECIAL_NAME_CASES !! Py.strip full_name = Some special ->
      parse_display_name full_name = special).
Proof.
  repeat split; try (vm_compute; reflexivity).
  exact special_case_precedence.
Qed.

Lemma display_name_examples_witness :
  SPECIAL_NAME_CASES !! Py.strip "  Michael H " = Some "Micky H" /\
  parse_display_name "  Michael H " = "Micky H".
Proof.
  split; [vm_compute; reflexivity |].
  apply (proj2 (proj2 (proj2 (proj2 display_name_examples)))).
  vm_compute; reflexivity.
Defined.

(** * Slugs *)

Lemma sfilter_In p s c :
  In c (list_ascii_of_string (Py.sfilter p s)) ->
  p c = true /\ In c (list_ascii_of_string s).
Proof.
  induction s as [|a s IH]; simpl; [tauto|].
  destruct (p a) eqn:Hp; simpl.
  - intros [<-|H]; [auto|]. destruct (IH H); auto.
  - intros H. destruct (IH H); auto.
Qed.

Lemma replace_char_In a b s c :
  a <> b ->
  In c (list_ascii_of_string (Py.replace_char a b s)) -> c <> a.
Proof.
  intros Hab. unfold Py.replace_char.
  induction s as [|x s IH]; simpl; [tauto|].
  intros [<-|H]; [|auto].
  destruct (Ascii.eqb_spec x a); congruence.
Qed.

Lemma is_forbidden_spec c : is_forbidden c = true <-> In c forbidden_chars.
Proof.
  unfold is_forbidden. rewrite existsb_exists. split.
  - intros (x & Hx & He). apply Ascii.eqb_eq in He. subst. exact Hx.
  - intros H. exists c. split; [exact H | apply Ascii.eqb_refl].
Qed.

Lemma sanitize_name_chars name c :
  In c (list_ascii_of_string (sanitize_name name)) -> safe_char c.
Proof.
  unfold sanitize_name, Py.or_else.
  set (s1 := Py.replace_char " " "_" name).
  set (s2 := Py.sfilter (fun c => negb (is_forbidden c)) s1).
  set (s3 := Py.sfilter Py.is_ascii s2).
  destruct (Py.truthy s3) eqn:Ht.
  - intros H. apply sfilter_In in H as [Hascii H].
    apply sfilter_In in H as [Hforb H].
    apply replace_char_In in H; [|discriminate].
    split; [exact H|]. split.
    + rewrite <- is_forbidden_spec. destruct (is_forbidden c); [discriminate|congruence].
    + unfold Py.is_ascii in Hascii. apply N.ltb_lt in Hascii. exact Hascii.
  - intros H. simpl in H.
    repeat destruct H as [<-|H]; try contradiction;
      (split; [discriminate | split; [| reflexivity]]);
      simpl; intros Hin; repeat destruct Hin as [Hin|Hin]; try discriminate; contradiction.
Qed.

Lemma sanitize_name_nonempty name : sanitize_name name <> EmptyString.
Proof.
  unfold sanitize_name, Py.or_else.
  destruct (Py.sfilter Py.is_ascii _) eqn:E; simpl; discriminate.
Qed.


(** * The student jobs *)

Lemma retry_returns {S A} (sleep : Q -> M S unit) wait n (fn : M S A) s a s' :
  fn s = (Returns a, s') -> Tenacity.retry sleep wait n fn s = (Returns a, s').
Proof.
  intros H. unfold Tenacity.retry.
  destruct (n - 1)%nat; simpl; rewrite H; reflexivity.
Qed.

Section JobFacts.
Variable config : PublishConfig.

(** The body never raises: whatever the download does, it returns an entry
    after exactly one call of the download and no wait. *)
Lemma body_total sec st a c w :
  exists r w',
    download_student_project_body config sec st a c w = (Returns r, w')
    /\ download_calls w' = Datatypes.S (download_calls w)
    /\ backoffs w' = backoffs w
    /\ slug r = job_slug st
    /\ match downloads w (download_calls w) with
       | Raises e => r = failed_entry sec st e (job_clock w)
       | Returns tree =>
           match PurePath.relative_to (student_dir config sec st) (project_root config) with
           | Some rel =>
               local_path r = Some (PurePath.str rel) /\ errors r = None
               /\ entry_page_path r = option_map fst (find_entry_page tree)
               /\ entry_page_file r = option_map snd (find_entry_page tree)
               /\ warnings r = match find_entry_page tree with
                               | Some _ => []
                               | None => ["No index.html or entry page found"]
                               end
           | None => local_path r = None /\ errors r <> None
           end
       end.
Proof.
  unfold download_student_project_body, try_except, bind, job_logger,
    modify, download_student_assignment, gets, ret, lift_option, raise. simpl.
  destruct (downloads w (download_calls w)) as [tree|e] eqn:Hd; simpl.
  - destruct (find_entry_page tree) as [[p f]|] eqn:Hf; simpl;
      destruct (PurePath.relative_to _ _) eqn:Hr; simpl;
      eexists _, _; (split; [reflexivity|]); simpl; repeat split; discriminate.
  - eexists _, _; (split; [reflexivity|]); simpl; repeat split.
Qed.

(** The decorated function returns what the first run of its body returns:
    the retry never comes into play. *)
Lemma job_single_attempt sec st a c w :
  exists r w',
    download_student_project config sec st a c w = (Returns r, w')
    /\ download_student_project_body config sec st a c w = (Returns r, w')
    /\ download_calls w' = Datatypes.S (download_calls w)
    /\ backoffs w' = backoffs w.
Proof.
  destruct (body_total sec st a c w) as (r & w' & Hb & Hc & Hk & _).
  exists r, w'. unfold download_student_project.
  rewrite (retry_returns _ _ _ _ _ _ _ Hb). auto.
Qed.

Lemma submit_returns worlds i (task : Task) :
  exists r, submit config worlds i task = Returns r.
Proof.
  destruct task as [[[sec st] a] c]. unfold submit.
  destruct (job_single_attempt sec st a c (worlds i)) as (r & w' & Hr & _).
  exists r. by rewrite Hr.
Qed.

Lemma futures_all_return worlds (all_tasks : list Task) :
  exists rs, imap (submit config worlds) all_tasks = Returns <$> rs.
Proof.
  generalize (submit config worlds) (submit_returns worlds).
  induction all_tasks as [|t l IH]; intros f Hf; [by exists []|].
  simpl. destruct (Hf 0%nat t) as [r Hr].
  destruct (IH (f ∘ Datatypes.S)) as [rs Hrs]; [intros i task; apply Hf|].
  exists (r :: rs). simpl. by rewrite Hr, Hrs.
Qed.
End JobFacts.

Lemma collect_results_acc (rs : list StudentResult) (order : list nat) acc :
  List.fold_left
    (fun (results : list StudentResult) (i : nat) =>
       match (Returns <$> rs) !! i with
       | Some (Returns result) => (results ++ [result])%list
       | _ => results
       end) order acc
  = (acc ++ omap (fun i => rs !! i) order)%list.
Proof.
  revert acc. induction order as [|i order IH]; intros acc; simpl.
  - by rewrite app_nil_r.
  - rewrite IH. rewrite list_lookup_fmap.
    destruct (rs !! i) as [r|] eqn:Hr; simpl; [|done].
    by rewrite <- app_assoc.
Qed.

Lemma omap_lookup_seq {A} (l : list A) :
  omap (fun i => l !! i) (seq 0 (length l)) = l.
Proof.
  induction l as [|x l IH] using rev_ind; [done|].
  rewrite length_app. simpl. rewrite Nat.add_1_r, seq_S. simpl.
  rewrite omap_app. simpl.
  rewrite lookup_app_r by lia. rewrite Nat.sub_diag. simpl.
  f_equal. rewrite <- IH at 2.
  apply list_omap_ext. apply Forall2_same_length_lookup_2; [done|].
  intros i a b Ha Hb. rewrite Ha in Hb. injection Hb as <-.
  apply lookup_seq in Ha as [-> Hlt]. simpl.
  by rewrite lookup_app_l.
Qed.

(** Each future returned, and the manifest holds their results, each once. *)
Lemma manifest_permutation config worlds (all_tasks : list Task) as_completed :
  as_completed ≡ₚ seq 0 (length all_tasks) ->
  Returns <$> download_all_students config all_tasks worlds as_completed
  ≡ₚ imap (submit config worlds) all_tasks.
Proof.
  intros Hperm. unfold download_all_students, collect_results.
  destruct (futures_all_return config worlds all_tasks) as [rs Hrs].
  rewrite Hrs, collect_results_acc. simpl.
  assert (length rs = length all_tasks) as Hlen.
  { rewrite <- (length_imap (submit config worlds) all_tasks), Hrs.
    by rewrite length_fmap. }
  rewrite Hperm, <- Hlen, omap_lookup_seq. done.
Qed.

(** C2. When every future is visited once, the manifest holds exactly one
    entry per enqueued job; the entry of a job depends on the world of that
    job alone; a job whose download raises gets an entry with one error and
    no local path; a job whose download returns gets an entry with its
    local path and no error (its directory lying below the project root). *)
Theorem manifest_one_entry_per_job (config : PublishConfig)
    (all_tasks : list Task) (worlds : nat -> JobWorld) (as_completed : list nat) :
  as_completed ≡ₚ seq 0 (length all_tasks) ->
  let manifest := download_all_students config all_tasks worlds as_completed in
  Returns <$> manifest ≡ₚ imap (submit config worlds) all_tasks
  /\ length manifest = length all_tasks
  /\ forall i sec st a c,
       all_tasks !! i = Some (sec, st, a, c) ->
       exists r,
         submit config worlds i (sec, st, a, c) = Returns r
         /\ r ∈ manifest
         /\ (forall others, others i = worlds i ->
               submit config others i (sec, st, a, c) = Returns r)
         /\ match downloads (worlds i) (download_calls (worlds i)) with
            | Raises e =>
                (exists msg, errors r = Some [msg]) /\ local_path r = None
            | Returns tree =>
                forall rel,
                  PurePath.relative_to (student_dir config sec st)
                    (project_root config) = Some rel ->
                  local_path r = Some (PurePath.str rel) /\ errors r = None
            end.
Proof.
  intros Hperm manifest.
  pose proof (manifest_permutation config worlds all_tasks as_completed Hperm) as HP.
  fold manifest in HP.
  split; [exact HP|]. split.
  { apply Permutation_length in HP.
    by rewrite length_fmap, length_imap in HP. }
  intros i sec st a c Hi.
  destruct (job_single_attempt config sec st a c (worlds i))
    as (r & w' & Hrun & Hbody & _).
  destruct (body_total config sec st a c (worlds i))
    as (r0 & w0 & Hbody0 & _ & _ & _ & Hcases).
  rewrite Hbody in Hbody0. injection Hbody0 as <- <-.
  exists r. split; [unfold submit; by rewrite Hrun|]. split; [|split].
  - assert (Returns r ∈ imap (submit config worlds) all_tasks) as Hin.
    { apply list_elem_of_lookup. exists i. rewrite list_lookup_imap.
      unfold Task in *. rewrite Hi. simpl. by rewrite Hrun. }
    rewrite <- HP in Hin. apply list_elem_of_fmap in Hin as (r' & [= <-] & Hin).
    exact Hin.
  - intros others Ho. unfold submit. rewrite Ho. by rewrite Hrun.
  - destruct (downloads (worlds i) (download_calls (worlds i))) as [tree|e].
    + intros rel Hrel. rewrite Hrel in Hcases. tauto.
    + subst r. simpl. split; [eexists; reflexivity|reflexivity].
Qed.

Lemma manifest_one_entry_per_job_witness :
  [1; 0]%nat ≡ₚ seq 0 (length [("7A", ada, "a-1", "c-1"); ("7A", grace, "a-1", "c-1")])
  /\ length (download_all_students demo_config
               [("7A", ada, "a-1", "c-1"); ("7A", grace, "a-1", "c-1")]
               (fun i => match i with O => failing_world | _ => healthy_world end)
               [1; 0]%nat) = 2%nat.
Proof.
  split; [apply perm_swap|].
  apply (manifest_one_entry_per_job demo_config
           [("7A", ada, "a-1", "c-1"); ("7A", grace, "a-1", "c-1")]
           (fun i => match i with O => failing_world | _ => healthy_world end)
           [1; 0]%nat).
  apply perm_swap.
Defined.

(** C3. At a job whose first download times out and whose second would
    succeed, the decorated function calls the download once, waits for no
    backoff and returns the failed entry: the retry never re-attempts. *)
Theorem job_retry_never_fires :
  downloads transient_world 1 = Returns only_in_subdir
  /\ (download_student_project demo_config "7A" ada "a-1" "c-1" transient_world).1
     = Returns (failed_entry "7A" ada timeout_exn 100)
  /\ download_calls
       (download_student_project demo_config "7A" ada "a-1" "c-1" transient_world).2
     = 1%nat
  /\ backoffs
       (download_student_project demo_config "7A" ada "a-1" "c-1" transient_world).2
     = [].
Proof. repeat split. Qed.


(** * The entry page search *)

Lemma first_hit_app v1 v2 :
  first_hit (v1 ++ v2) =
  match first_hit v1 with Some r => Some r | None => first_hit v2 end.
Proof.
  induction v1 as [|[[rel es] pats] v1 IH]; simpl; [done|].
  destruct (first_pattern es pats); [done|apply IH].
Qed.

Lemma search_subsubdirs_visits nm l :
  search_subsubdirs nm l = first_hit (visible_visits (fun n2 => nm +:+ "/" +:+ n2) l).
Proof.
  induction l as [|[n x] l IH]; cbn [search_subsubdirs visible_visits flat_map]; [done|].
  destruct (visible_dir n x) as [es|]; [|apply IH].
  cbn [app first_hit]. destruct (first_pattern es patterns); [done|apply IH].
Qed.

Lemma search_subdirs_visits l :
  search_subdirs l = first_hit (subdir_visits l).
Proof.
  induction l as [|[n x] l IH]; cbn [search_subdirs subdir_visits flat_map]; [done|].
  destruct (visible_dir n x) as [es|]; [|apply IH].
  cbn [app first_hit]. destruct (first_pattern es patterns); [done|].
  rewrite first_hit_app, <- search_subsubdirs_visits.
  destruct (search_subsubdirs n es); [done|apply IH].
Qed.

Lemma find_entry_page_visit_order d :
  find_entry_page d = first_hit (visit_order d).
Proof.
  unfold find_entry_page, visit_order. cbn [app first_hit].
  destruct (first_pattern d patterns); [done|].
  rewrite first_hit_app, <- search_subdirs_visits.
  destruct (search_subdirs d); [done|]. cbn [first_hit].
  destruct (first_pattern d fallback_patterns); done.
Qed.

Lemma subdir_visits_app (l1 l2 : Listing) :
  subdir_visits (l1 ++ l2)%list = (subdir_visits l1 ++ subdir_visits l2)%list.
Proof. unfold subdir_visits. apply flat_map_app. Qed.

Lemma find_entry_page_in_subdir (before : Listing) name es after :
  Py.startswith name "." = false ->
  first_pattern (before ++ (name, Dir es) :: after)%list patterns = None ->
  first_hit (subdir_visits before) = None ->
  is_file_in es "index.html" = true ->
  find_entry_page (before ++ (name, Dir es) :: after)%list = Some (name, "index.html").
Proof.
  intros Hvis Hroot Hbefore Hfile.
  rewrite find_entry_page_visit_order. unfold visit_order.
  cbn [app first_hit]. rewrite Hroot.
  rewrite first_hit_app, subdir_visits_app, first_hit_app, Hbefore.
  cbn [subdir_visits flat_map visible_dir]. rewrite Hvis.
  cbn [app first_hit]. unfold first_pattern at 1. simpl. rewrite Hfile.
  reflexivity.
Qed.

(** C8, the order as the specification words it. With [a/x/index.html] and
    [b/index.html], [a] listed first, the code answers [a/x] and a search
    by levels answers [b]. *)
Lemma entry_page_not_by_levels :
  find_entry_page nested_first = Some ("a/x", "index.html")
  /\ find_entry_page_by_levels nested_first = Some ("b", "index.html")
  /\ find_entry_page nested_first <> find_entry_page_by_levels nested_first.
Proof. repeat split; discriminate. Qed.

(** C8, as amended. The search returns the first match in this order: the
    candidate names at the root; then, for each visible subdirectory in
    the order of the listing, the candidates in it followed by the
    candidates in each of its own visible subdirectories; then the fallback
    names at the root.  A project whose only entry page is [index.html] in
    one visible subdirectory gets that directory and that file.  When no
    place of the search holds a candidate the answer is no match, and the
    job that downloaded such a project records one warning and no error. *)
Theorem entry_page_search_order :
  (forall d, find_entry_page d = first_hit (visit_order d))
  /\ (forall (before : Listing) name es after,
        Py.startswith name "." = false ->
        first_pattern (before ++ (name, Dir es) :: after)%list patterns = None ->
        first_hit (subdir_visits before) = None ->
        is_file_in es "index.html" = true ->
        find_entry_page (before ++ (name, Dir es) :: after)%list
        = Some (name, "index.html"))
  /\ (forall config sec st a c w tree rel,
        downloads w (download_calls w) = Returns tree ->
        first_hit (visit_order tree) = None ->
        PurePath.relative_to (student_dir config sec st) (project_root config)
        = Some rel ->
        find_entry_page tree = None
        /\ exists r w',
             download_student_project config sec st a c w = (Returns r, w')
             /\ warnings r = ["No index.html or entry page found"]
             /\ errors r = None
             /\ entry_page_path r = None /\ entry_page_file r = None).
Proof.
  split; [exact find_entry_page_visit_order|].
  split; [exact find_entry_page_in_subdir|].
  intros config sec st a c w tree rel Hd Hnone Hrel.
  assert (Hf : find_entry_page tree = None)
    by (rewrite find_entry_page_visit_order; exact Hnone).
  split; [exact Hf|].
  destruct (job_single_attempt config sec st a c w) as (r & w' & Hrun & Hbody & _).
  destruct (body_total config sec st a c w) as (r0 & w0 & Hbody0 & _ & _ & _ & Hcases).
  rewrite Hbody in Hbody0. injection Hbody0 as <- <-.
  rewrite Hd, Hrel, Hf in Hcases. simpl in Hcases.
  exists r, w'. tauto.
Qed.

Lemma entry_page_search_order_witness :
  Py.startswith "subdir" "." = false
  /\ first_pattern only_in_subdir patterns = None
  /\ first_hit (subdir_visits [("assets", Dir [("logo.png", File "png")])]) = None
  /\ is_file_in [("index.html", page); ("style.css", File "css")] "index.html" = true
  /\ find_entry_page only_in_subdir = Some ("subdir", "index.html")
  /\ downloads pageless_world (download_calls pageless_world)
     = Returns [("notes.txt", File "todo")]
  /\ find_entry_page [("notes.txt", File "todo")] = None.
Proof.
  split; [reflexivity|]. split; [reflexivity|]. split; [reflexivity|].
  split; [reflexivity|]. split.
  - apply (proj1 (proj2 entry_page_search_order)
             [("assets", Dir [("logo.png", File "png")])] "subdir"
             [("index.html", page); ("style.css", File "css")] []);
      reflexivity.
  - split; [reflexivity|].
    refine (proj1 (proj2 (proj2 entry_page_search_order) demo_config "7A" ada
                     "a-1" "c-1" pageless_world [("notes.txt", File "todo")]
                     {| PurePath.absolute := false;
                        PurePath.parts := ["build"; "7A"; "ada"] |} _ _ _));
      vm_compute; reflexivity.
Defined.

(** * Archive extraction *)


Lemma prefix_firstn (q p : list string) :
  q `prefix_of` p -> List.firstn (length q) p = q.
Proof. intros [k ->]. apply take_app_length. Qed.

Lemma self_and_parents_spec (q p : list string) :
  q ∈ self_and_parents p <-> q `prefix_of` p.
Proof.
  unfold self_and_parents. rewrite elem_of_list_to_set, list_elem_of_In, in_map_iff.
  split.
  - intros (n & <- & _). apply prefix_take.
  - intros Hq. exists (length q). split; [by apply prefix_firstn|].
    apply in_seq. apply prefix_length in Hq. lia.
Qed.

Lemma file_at_or_above_true (p : list string) d :
  file_at_or_above p d = true <->
  exists q, q `prefix_of` p /\ is_Some (files d !! q).
Proof.
  unfold file_at_or_above, is_file. rewrite existsb_exists. split.
  - intros (n & _ & Hn). apply bool_decide_eq_true_1 in Hn.
    exists (List.firstn n p). split; [apply prefix_take|exact Hn].
  - intros (q & Hq & Hf). exists (length q). split.
    + apply in_seq. apply prefix_length in Hq. lia.
    + rewrite (prefix_firstn _ _ Hq). by apply bool_decide_eq_true_2.
Qed.

Lemma file_at_or_above_false (p : list string) d :
  file_at_or_above p d = false <->
  forall q, q `prefix_of` p -> files d !! q = None.
Proof.
  split.
  - intros H q Hq. destruct (files d !! q) as [c|] eqn:E; [|done].
    assert (file_at_or_above p d = true); [|congruence].
    apply file_at_or_above_true. exists q. rewrite E. eauto.
  - intros H. destruct (file_at_or_above p d) eqn:E; [|done].
    apply file_at_or_above_true in E as (q & Hq & [c Hc]).
    rewrite (H q Hq) in Hc. discriminate.
Qed.

Lemma file_at_or_above_files (p : list string) d1 d2 :
  files d1 = files d2 -> file_at_or_above p d1 = file_at_or_above p d2.
Proof. unfold file_at_or_above, is_file. by intros ->. Qed.

Lemma blocked_same_disk target k d1 d2 :
  same_disk d1 d2 -> blocked target k d1 = blocked target k d2.
Proof.
  intros [Hf Hd]. unfold blocked. destruct k.
  - by rewrite (file_at_or_above_files _ d1 d2 Hf), Hd.
  - by apply file_at_or_above_files.
Qed.

Lemma mkdir_parents_returns (p : list string) d :
  file_at_or_above p d = false ->
  mkdir_parents p d
  = (Returns tt,
     {| files := files d; dirs := dirs d ∪ self_and_parents p; log := log d |}).
Proof.
  intros H. unfold mkdir_parents. rewrite H.
  assert (is_file p d = false) as ->; [|reflexivity].
  unfold is_file. apply bool_decide_eq_false_2. intros Hf.
  by rewrite (proj1 (file_at_or_above_false p d) H p) in Hf by done; destruct Hf.
Qed.




Section ExtractionFacts.
Variable cwd : list string.
Variable untar : string -> Result (list TarInfo).
Variable unzstd : string -> Result string.














Lemma recreate_destination_run dest d :
  is_directory (resolved cwd dest) d ->
  recreate_destination cwd dest d
  = (Returns tt,
     {| files := filter (fun kv => outside (resolved cwd dest) kv.1) (files d);
        dirs := filter (outside (resolved cwd dest)) (dirs d)
                ∪ self_and_parents (resolved cwd dest);
        log := log d |}).
Proof.
  intros Hdir. destruct (Hdir (resolved cwd dest)) as [Hin Hfile]; [done|].
  unfold recreate_destination, bind, gets, path_exists, rmtree.
  rewrite (bool_decide_eq_true_2 _ Hin). simpl.
  rewrite bool_decide_eq_false_2 by (rewrite Hfile; by intros [? ?]).
  rewrite mkdir_parents_returns; [reflexivity|].
  apply file_at_or_above_false. intros q Hq. cbn [files].
  apply map_lookup_filter_None. left. by apply Hdir.
Qed.

Lemma recreate_destination_agree dest d1 d2 :
  is_directory (resolved cwd dest) d1 ->
  is_directory (resolved cwd dest) d2 ->
  agree_outside (resolved cwd dest) d1 d2 ->
  recreate_destination cwd dest d1 = recreate_destination cwd dest d2.
Proof.
  intros H1 H2 (Hf & Hd & Hl).
  rewrite !recreate_destination_run by done. f_equal. f_equal.
  - apply map_eq. intros p. apply option_eq. intros c.
    rewrite !map_lookup_filter_Some. simpl. split; intros [Hp Hout]; split; try done.
    + by rewrite <- Hf.
    + by rewrite Hf.
  - f_equal. apply set_eq. intros p. rewrite !elem_of_filter.
    split; intros [Hout Hp]; split; try done; by apply (Hd p Hout).
  - exact Hl.
Qed.

Lemma extract_assignment_unfold dry zst_file dest d :
  _extract_assignment cwd untar unzstd dry zst_file dest d
  = match recreate_destination cwd dest (warn DEBUG "Extracting" d) with
    | (Returns _, d') => unpack_archive cwd untar unzstd dry zst_file dest d'
    | (Raises e, d') => (Raises e, d')
    end.
Proof. reflexivity. Qed.

(** C6. When the destination is an existing directory, the archive is
    unpacked on a disk where nothing lies below the destination and the
    destination is there, the rest of the disk being as before; so two
    disks that differ only below the destination end the same: nothing of
    the prior contents is left. *)
Theorem clean_replace dry zst_file dest d1 d2 :
  is_directory (resolved cwd dest) d1 ->
  is_directory (resolved cwd dest) d2 ->
  agree_outside (resolved cwd dest) d1 d2 ->
  _extract_assignment cwd untar unzstd dry zst_file dest d1
  = _extract_assignment cwd untar unzstd dry zst_file dest d2
  /\ exists fresh,
       _extract_assignment cwd untar unzstd dry zst_file dest d1
       = unpack_archive cwd untar unzstd dry zst_file dest fresh
       /\ (forall p, resolved cwd dest `prefix_of` p -> files fresh !! p = None)
       /\ (forall p, resolved cwd dest `prefix_of` p -> p ∈ dirs fresh ->
             p = resolved cwd dest)
       /\ resolved cwd dest ∈ dirs fresh
       /\ (forall p, outside (resolved cwd dest) p ->
             files fresh !! p = files d1 !! p).
Proof.
  intros H1 H2 Hagree.
  assert (agree_outside (resolved cwd dest)
            (warn DEBUG "Extracting" d1) (warn DEBUG "Extracting" d2)) as Hagree'.
  { destruct Hagree as (Hf & Hd & Hl). repeat split; simpl; try apply Hd; auto.
    by rewrite Hl. }
  split.
  - rewrite !extract_assignment_unfold.
    rewrite (recreate_destination_agree dest (warn DEBUG "Extracting" d1)
               (warn DEBUG "Extracting" d2) H1 H2 Hagree'). reflexivity.
  - eexists. rewrite extract_assignment_unfold.
    rewrite (recreate_destination_run dest (warn DEBUG "Extracting" d1) H1).
    split; [reflexivity|]. simpl. repeat split.
    + intros p Hp. apply map_lookup_filter_None. right. intros c _ Hout. by apply Hout.
    + intros p Hp Hin. apply elem_of_union in Hin as [Hin|Hin].
      * apply elem_of_filter in Hin as [Hout _]. by destruct Hout.
      * apply self_and_parents_spec in Hin.
        apply prefix_length_eq; [done|by apply prefix_length].
    + apply elem_of_union_r. by apply self_and_parents_spec.
    + intros p Hout. destruct (files d1 !! p) as [c|] eqn:Hc.
      * apply map_lookup_filter_Some. done.
      * apply map_lookup_filter_None. by left.
Qed.
End ExtractionFacts.

Lemma is_directory_intro (p : list string) d :
  self_and_parents p ⊆ dirs d ->
  file_at_or_above p d = false ->
  is_directory p d.
Proof.
  intros Hd Hf q Hq. split.
  - apply Hd. by apply self_and_parents_spec.
  - by apply (proj1 (file_at_or_above_false p d) Hf).
Qed.

Lemma demo_dest_is_directory d :
  dirs d = self_and_parents ["srv"; "about-me"; "build"; "7A"; "ada"] ->
  file_at_or_above ["srv"; "about-me"; "build"; "7A"; "ada"] d = false ->
  is_directory (resolved demo_cwd demo_dest) d.
Proof.
  intros Hd Hf.
  assert (Hdest : resolved demo_cwd demo_dest = ["srv"; "about-me"; "build"; "7A"; "ada"])
    by (vm_compute; reflexivity).
  rewrite Hdest. apply is_directory_intro; [by rewrite Hd|exact Hf].
Qed.



Lemma clean_replace_witness :
  is_directory (resolved demo_cwd demo_dest) (demo_disk "old")
  /\ is_directory (resolved demo_cwd demo_dest) (demo_disk "older")
  /\ agree_outside (resolved demo_cwd demo_dest) (demo_disk "old") (demo_disk "older")
  /\ _extract_assignment demo_cwd demo_untar demo_unzstd false demo_tar demo_dest
       (demo_disk "old")
     = _extract_assignment demo_cwd demo_untar demo_unzstd false demo_tar demo_dest
         (demo_disk "older").
Proof.
  assert (Hdest : resolved demo_cwd demo_dest = ["srv"; "about-me"; "build"; "7A"; "ada"])
    by (vm_compute; reflexivity).
  assert (H1 : forall stale, is_directory (resolved demo_cwd demo_dest) (demo_disk stale)).
  { intros stale. apply demo_dest_is_directory; [reflexivity|].
    apply file_at_or_above_false. intros q Hq. simpl.
    apply lookup_insert_None. split.
    - apply lookup_singleton_None. intros <-.
      apply prefix_length in Hq. simpl in Hq. lia.
    - intros <-. destruct Hq as [k Hk]. discriminate Hk. }
  assert (H3 : agree_outside (resolved demo_cwd demo_dest)
                 (demo_disk "old") (demo_disk "older")).
  { rewrite Hdest. split; [|split; [done|done]].
    intros p Hout. simpl.
    destruct (decide (p = ["srv"; "about-me"; "build"; "7A"; "ada"; "old.html"])) as [->|Hne].
    - destruct Hout. by exists ["old.html"].
    - rewrite !lookup_insert. case_decide; [done|].
      by rewrite !lookup_singleton_ne. }
  split; [apply H1|]. split; [apply H1|]. split; [exact H3|].
  apply (clean_replace demo_cwd demo_untar demo_unzstd false demo_tar demo_dest
           (demo_disk "old") (demo_disk "older") (H1 _) (H1 _) H3).
Defined.

(** * The rate limiter *)

Local Open Scope Q_scope.

Lemma bind_returns {S A B} (m : M S A) (k : A -> M S B) s a s' :
  m s = (Returns a, s') -> bind m k s = k a s'.
Proof. intros H. unfold bind. by rewrite H. Qed.


Lemma Qlt_bool_true x y : Qlt_bool x y = true <-> x < y.
Proof.
  unfold Qlt_bool. rewrite negb_true_iff. split.
  - intros H. apply Qnot_le_lt. intros Hle. apply Qle_bool_iff in Hle. congruence.
  - intros H. destruct (Qle_bool y x) eqn:E; [|done].
    apply Qle_bool_iff in E. lra.
Qed.

Lemma Qlt_bool_false x y : Qlt_bool x y = false <-> y <= x.
Proof.
  unfold Qlt_bool. rewrite negb_false_iff. apply Qle_bool_iff.
Qed.

Lemma popleft_while_length cutoff l :
  (length (popleft_while cutoff l) <= length l)%nat.
Proof.
  induction l as [|t l IH]; simpl; [lia|].
  destruct (Qlt_bool t cutoff); simpl; lia.
Qed.

Lemma popleft_while_head cutoff l h rest :
  popleft_while cutoff l = h :: rest -> cutoff <= h.
Proof.
  induction l as [|t l IH]; simpl; [done|].
  destruct (Qlt_bool t cutoff) eqn:E; [exact IH|].
  intros [= <- _]. by apply Qlt_bool_false.
Qed.

Lemma popleft_while_stale cutoff h rest :
  h < cutoff ->
  (length (popleft_while cutoff (h :: rest)) <= length rest)%nat.
Proof.
  intros H. simpl. apply Qlt_bool_true in H. rewrite H. apply popleft_while_length.
Qed.

Lemma popleft_while_split cutoff l :
  exists popped,
    l = (popped ++ popleft_while cutoff l)%list
    /\ forall x, In x popped -> x < cutoff.
Proof.
  induction l as [|t l (popped & Hl & Hp)]; simpl; [by exists []|].
  destruct (Qlt_bool t cutoff) eqn:E.
  - exists (t :: popped). split; [simpl; by rewrite <- Hl|].
    intros x [<-|Hx]; [by apply Qlt_bool_true|auto].
  - exists []. split; [done|]. intros x [].
Qed.

Lemma filter_stale W t (l : list Q) :
  (forall x, In x l -> x < t - W) -> List.filter (in_window W t) l = [].
Proof.
  induction l as [|x l IH]; intros H; simpl; [done|].
  assert (Hx : in_window W t x = false).
  { unfold in_window. apply andb_false_iff. left.
    destruct (Qle_bool (t - W) x) eqn:E; [|done].
    apply Qle_bool_iff in E. pose proof (H x (or_introl eq_refl)). lra. }
  rewrite Hx. apply IH. intros y Hy. apply H. by right.
Qed.

Section Limiter.
Variable env : Env.
Hypothesis time_passes : forall k, 0 < elapse env k.

Lemma reset_daily_counter_spec now w :
  exists w', reset_daily_counter now w = (Returns tt, w')
    /\ burst_frame w w'
    /\ now < daily_reset_time (limiter w').
Proof.
  unfold reset_daily_counter, bind, gets, update_limiter, modify, ret.
  destruct (Qle_bool (daily_reset_time (limiter w)) now) eqn:E.
  - eexists. split; [reflexivity|]. unfold burst_frame, limiter. simpl.
    repeat split; try reflexivity; lra.
  - eexists. split; [reflexivity|]. unfold burst_frame.
    repeat split; try reflexivity; try lra.
    apply Qnot_le_lt. intros H. apply Qle_bool_iff in H. congruence.
Qed.

Lemma check_daily_limit_spec now w :
  now < daily_reset_time (limiter w) ->
  exists w', check_daily_limit env now w = (Returns tt, w') /\ burst_frame w w'.
Proof.
  intros Hnow.
  unfold check_daily_limit, bind, gets, update_limiter, modify, ret, time_sleep, time_time.
  destruct (daily_limit (limiter w) <=? daily_count (limiter w))%Z.
  - assert (Qlt_bool (daily_reset_time (limiter w) - now) 0 = false) as ->.
    { apply Qlt_bool_false. lra. }
    eexists. split; [reflexivity|]. unfold burst_frame, limiter in *. simpl.
    pose proof (time_passes (ticks w)). pose proof (time_passes (Datatypes.S (ticks w))).
    repeat split; try reflexivity. lra.
  - eexists. split; [reflexivity|]. unfold burst_frame. repeat split; try reflexivity; lra.
Qed.

Lemma remove_old_requests_spec now w :
  exists w', remove_old_requests now w = (Returns tt, w')
    /\ request_times (limiter w')
       = popleft_while (now - window (limiter w)) (request_times (limiter w))
    /\ burst_limit (limiter w') = burst_limit (limiter w)
    /\ window (limiter w') = window (limiter w)
    /\ clock w' = clock w.
Proof.
  unfold remove_old_requests, bind, gets, update_limiter, modify.
  eexists. split; [reflexivity|]. repeat split.
Qed.

Lemma check_burst_limit_spec now w (L : Z) :
  (1 <= L)%Z ->
  burst_limit (limiter w) = L ->
  (Z.of_nat (length (request_times (limiter w))) <= L)%Z ->
  now <= clock w ->
  exists w', check_burst_limit env now w = (Returns tt, w')
    /\ burst_limit (limiter w') = L
    /\ window (limiter w') = window (limiter w)
    /\ clock w <= clock w'
    /\ ((Z.of_nat (length (request_times (limiter w'))) <= L - 1)%Z
        \/ exists h rest, request_times (limiter w') = h :: rest
             /\ Z.of_nat (length rest) = (L - 1)%Z
             /\ h <= now - window (limiter w)).
Proof.
  intros HL Hlim Hlen Hnow. unfold check_burst_limit.
  rewrite (bind_returns _ _ w (limiter w) w) by reflexivity.
  rewrite Hlim.
  destruct (L <=? Z.of_nat (length (request_times (limiter w))))%Z eqn:Hfull.
  2:{ exists w. split; [reflexivity|]. repeat split; try done; try lra.
      left. apply Z.leb_gt in Hfull. lia. }
  apply Z.leb_le in Hfull.
  destruct (request_times (limiter w)) as [|oldest rest] eqn:Htimes.
  { simpl in Hfull. lia. }
  simpl in Hlen.
  destruct (Qlt_bool 0 (oldest + window (limiter w) - now)) eqn:Hwait.
  - apply Qlt_bool_true in Hwait.
    unfold bind at 1. unfold time_sleep.
    assert (Qlt_bool (oldest + window (limiter w) - now + (1 # 10)) 0 = false) as ->.
    { apply Qlt_bool_false. lra. }
    cbv beta iota. unfold bind at 1. unfold time_time at 1. cbv beta iota zeta.
    match goal with |- context [remove_old_requests ?n ?s] =>
      destruct (remove_old_requests_spec n s) as (w' & Hrun & Ht & Hb & Hw & Hc) end.
    exists w'. split; [exact Hrun|].
    pose proof (time_passes (ticks w)) as He1.
    pose proof (time_passes (Datatypes.S (ticks w))) as He2.
    unfold limiter in *. simpl in *.
    split; [congruence|]. split; [congruence|]. split.
    { rewrite Hc. lra. }
    left. rewrite Ht, Htimes.
    match goal with |- context [popleft_while ?c _] =>
      pose proof (popleft_while_stale c oldest rest) as Hpop end.
    simpl in Hpop. simpl.
    assert (Hstale : oldest <
      clock w + (oldest + window (rate_limiter (api w)) - now + (1 # 10))
      + elapse env (ticks w) + elapse env (Datatypes.S (ticks w))
      - window (rate_limiter (api w))) by lra.
    specialize (Hpop Hstale). lia.
  - apply Qlt_bool_false in Hwait.
    exists w. split; [reflexivity|]. repeat split; try done; try lra.
    right. exists oldest, rest. rewrite Htimes. split; [reflexivity|].
    split; [simpl in Hfull; lia|lra].
Qed.

Lemma record_request_spec w :
  exists w', record_request env w = (Returns tt, w')
    /\ request_times (limiter w') = (request_times (limiter w) ++ [clock w'])%list
    /\ burst_limit (limiter w') = burst_limit (limiter w)
    /\ window (limiter w') = window (limiter w)
    /\ clock w < clock w'.
Proof.
  unfold record_request, bind, time_time, update_limiter, modify.
  eexists. split; [reflexivity|]. unfold limiter. simpl.
  pose proof (time_passes (ticks w)). repeat split. lra.
Qed.

Lemma filter_length_le {A} (p : A -> bool) l :
  (length (List.filter p l) <= length l)%nat.
Proof.
  induction l as [|x l IH]; simpl; [lia|]. destruct (p x); simpl; lia.
Qed.

Lemma wait_if_needed_step (L : Z) w :
  (1 <= L)%Z ->
  burst_inv L w ->
  exists w' older,
    wait_if_needed env w = (Returns tt, w')
    /\ burst_inv L w'
    /\ window (limiter w') = window (limiter w)
    /\ request_times (limiter w') = (older ++ [clock w'])%list
    /\ (Z.of_nat (recent_requests (limiter w') (clock w')) <= L)%Z.
Proof.
  intros HL [Hlim Hinv]. unfold wait_if_needed.
  pose proof (time_passes (ticks w)) as He0.
  set (now := clock w + elapse env (ticks w)).
  rewrite (bind_returns _ _ w now
    {| clock := now; ticks := Datatypes.S (ticks w); http_calls := http_calls w;
       oauth_calls := oauth_calls w; trace := trace w; api := api w |})
    by reflexivity.
  cbv beta.
  set (w1 := {| clock := now; ticks := Datatypes.S (ticks w);
                http_calls := http_calls w; oauth_calls := oauth_calls w;
                trace := trace w; api := api w |}).
  destruct (reset_daily_counter_spec now w1) as (w2 & Hrun2 & (Ht2 & Hb2 & Hw2 & Hc2) & Hreset).
  rewrite (bind_returns _ _ _ _ _ Hrun2); cbv beta.
  destruct (check_daily_limit_spec now w2 Hreset) as (w3 & Hrun3 & (Ht3 & Hb3 & Hw3 & Hc3)).
  rewrite (bind_returns _ _ _ _ _ Hrun3); cbv beta.
  destruct (remove_old_requests_spec now w3) as (w4 & Hrun4 & Ht4 & Hb4 & Hw4 & Hc4).
  rewrite (bind_returns _ _ _ _ _ Hrun4); cbv beta.
  assert (Htimes3 : request_times (limiter w3) = request_times (limiter w))
    by (rewrite Ht3, Ht2; reflexivity).
  assert (Hwin3 : window (limiter w3) = window (limiter w))
    by (rewrite Hw3, Hw2; reflexivity).
  assert (Hlen4 : (Z.of_nat (length (request_times (limiter w4))) <= L)%Z).
  { rewrite Ht4, Htimes3, Hwin3. destruct Hinv as [Hle|(h & rest & Hrt & Hrest & Hh)].
    - pose proof (popleft_while_length (now - window (limiter w)) (request_times (limiter w))).
      lia.
    - rewrite Hrt.
      pose proof (popleft_while_stale (now - window (limiter w)) h rest) as Hpop.
      assert (h < now - window (limiter w)) as Hst by (unfold now; lra).
      specialize (Hpop Hst). lia. }
  assert (Hb1 : burst_limit (limiter w1) = burst_limit (limiter w)) by reflexivity.
  assert (Hw1 : window (limiter w1) = window (limiter w)) by reflexivity.
  assert (Hnow4 : now <= clock w4).
  { rewrite Hc4. apply Qle_trans with (clock w2); [|exact Hc3].
    apply Qle_trans with (clock w1); [|exact Hc2]. simpl. lra. }
  destruct (check_burst_limit_spec now w4 L HL ltac:(congruence) Hlen4 Hnow4)
    as (w5 & Hrun5 & Hb5 & Hw5 & Hc5 & Hpost).
  rewrite (bind_returns _ _ _ _ _ Hrun5); cbv beta.
  destruct (record_request_spec w5) as (w6 & Hrun6 & Ht6 & Hb6 & Hw6 & Hc6).
  exists w6, (request_times (limiter w5)).
  split; [exact Hrun6|].
  assert (Hwin6 : window (limiter w6) = window (limiter w)) by congruence.
  assert (Hwin4 : window (limiter w4) = window (limiter w)) by congruence.
  destruct Hpost as [Hshort|(h & rest & Hrt & Hrest & Hh)].
  - split; [|split; [exact Hwin6|split; [exact Ht6|]]].
    + split; [congruence|]. left. rewrite Ht6, length_app. simpl. lia.
    + unfold recent_requests. rewrite Ht6.
      pose proof (filter_length_le (in_window (window (limiter w6)) (clock w6))
                    (request_times (limiter w5) ++ [clock w6])%list) as Hf.
      rewrite length_app in Hf. simpl in Hf. lia.
  - assert (Hold : h < clock w6 - window (limiter w6)).
    { rewrite Hwin6. rewrite Hwin4 in Hh.
      apply Qle_lt_trans with (now - window (limiter w)); [exact Hh|].
      assert (now < clock w6); [|lra].
      apply Qle_lt_trans with (clock w4); [exact Hnow4|].
      apply Qle_lt_trans with (clock w5); [exact Hc5|exact Hc6]. }
    split; [|split; [exact Hwin6|split; [exact Ht6|]]].
    + split; [congruence|]. right. exists h, (rest ++ [clock w6])%list.
      rewrite Ht6, Hrt. split; [reflexivity|]. split; [|exact Hold].
      rewrite length_app. simpl. lia.
    + unfold recent_requests. rewrite Ht6, Hrt. simpl.
      assert (in_window (window (limiter w6)) (clock w6) h = false) as ->.
      { unfold in_window. apply andb_false_iff. left.
        destruct (Qle_bool (clock w6 - window (limiter w6)) h) eqn:E; [|done].
        apply Qle_bool_iff in E. lra. }
      pose proof (filter_length_le (in_window (window (limiter w6)) (clock w6))
                    (rest ++ [clock w6])%list) as Hf.
      rewrite length_app in Hf. simpl in Hf. lia.
Qed.
Lemma check_burst_limit_prunes now w :
  exists r w' popped,
    check_burst_limit env now w = (r, w')
    /\ request_times (limiter w) = (popped ++ request_times (limiter w'))%list
    /\ (forall x, In x popped -> x < clock w' - window (limiter w))
    /\ clock w <= clock w'.
Proof.
  assert (Hsame : forall r, exists (r0 : Result unit) w' popped,
    (r, w) = (r0, w')
    /\ request_times (limiter w) = (popped ++ request_times (limiter w'))%list
    /\ (forall x, In x popped -> x < clock w' - window (limiter w))
    /\ clock w <= clock w').
  { intros r. exists r, w, []. split; [done|]. split; [done|].
    split; [intros x []|apply Qle_refl]. }
  unfold check_burst_limit, bind, gets, limiter in *.
  destruct (burst_limit (rate_limiter (api w)) <=? _)%Z; [|apply Hsame].
  destruct (request_times (rate_limiter (api w))) as [|oldest rest] eqn:Htimes;
    [apply Hsame|].
  destruct (Qlt_bool 0 _) eqn:Hwait; [|apply Hsame].
  unfold time_sleep. destruct (Qlt_bool _ 0) eqn:Hneg; [apply Hsame|].
  unfold time_time, remove_old_requests, bind, gets, update_limiter, modify, limiter.
  cbn [api rate_limiter clock ticks set_api set_rate_limiter set_request_times
       request_times window].
  rewrite Htimes.
  match goal with |- context [popleft_while ?c ?l] =>
    destruct (popleft_while_split c l) as (popped & Hl & Hp) end.
  eexists _, _, popped. split; [reflexivity|].
  cbn [api rate_limiter clock set_api set_rate_limiter set_request_times
       request_times window].
  split; [exact Hl|]. split; [exact Hp|].
  apply Qlt_bool_false in Hneg.
  pose proof (time_passes (ticks w)). pose proof (time_passes (Datatypes.S (ticks w))).
  lra.
Qed.

Lemma wait_if_needed_prunes w w' :
  wait_if_needed env w = (Returns tt, w') ->
  exists popped kept,
    request_times (limiter w) = (popped ++ kept)%list
    /\ request_times (limiter w') = (kept ++ [clock w'])%list
    /\ (forall x, In x popped -> x < clock w' - window (limiter w))
    /\ clock w < clock w'.
Proof.
  unfold wait_if_needed.
  pose proof (time_passes (ticks w)) as He0.
  set (now := clock w + elapse env (ticks w)).
  rewrite (bind_returns _ _ w now
    {| clock := now; ticks := Datatypes.S (ticks w); http_calls := http_calls w;
       oauth_calls := oauth_calls w; trace := trace w; api := api w |})
    by reflexivity.
  cbv beta.
  set (w1 := {| clock := now; ticks := Datatypes.S (ticks w);
                http_calls := http_calls w; oauth_calls := oauth_calls w;
                trace := trace w; api := api w |}).
  destruct (reset_daily_counter_spec now w1) as (w2 & Hrun2 & (Ht2 & Hb2 & Hw2 & Hc2) & Hreset).
  rewrite (bind_returns _ _ _ _ _ Hrun2); cbv beta.
  destruct (check_daily_limit_spec now w2 Hreset)
    as (w3 & Hrun3 & (Ht3 & Hb3 & Hw3 & Hc3)).
  rewrite (bind_returns _ _ _ _ _ Hrun3); cbv beta.
  destruct (remove_old_requests_spec now w3) as (w4 & Hrun4 & Ht4 & Hb4 & Hw4 & Hc4).
  rewrite (bind_returns _ _ _ _ _ Hrun4); cbv beta.
  destruct (check_burst_limit_prunes now w4) as (r5 & w5 & popped5 & Hrun5 & Ht5 & Hp5 & Hc5).
  unfold bind at 1. rewrite Hrun5. destruct r5 as [[]|e5]; [|discriminate].
  destruct (record_request_spec w5) as (w6 & Hrun6 & Ht6 & Hb6 & Hw6 & Hc6).
  rewrite Hrun6. intros [= <-].
  destruct (popleft_while_split (now - window (limiter w3)) (request_times (limiter w3)))
    as (popped4 & Hl4 & Hp4).
  exists (popped4 ++ popped5)%list, (request_times (limiter w5)).
  assert (Hwin : window (limiter w4) = window (limiter w)) by (rewrite Hw4, Hw3, Hw2; reflexivity).
  assert (Hwin3 : window (limiter w3) = window (limiter w)) by (rewrite Hw3, Hw2; reflexivity).
  assert (Hclock : now <= clock w5).
  { apply Qle_trans with (clock w4); [|exact Hc5]. rewrite Hc4.
    apply Qle_trans with (clock w2); [|exact Hc3].
    apply Qle_trans with (clock w1); [|exact Hc2]. apply Qle_refl. }
  split; [|split; [exact Ht6|split]].
  - rewrite <- app_assoc, <- Ht5, Ht4, <- Hl4, Ht3, Ht2. reflexivity.
  - intros x [Hx|Hx]%in_app_or.
    + specialize (Hp4 x Hx). rewrite Hwin3 in Hp4. lra.
    + specialize (Hp5 x Hx). rewrite Hwin in Hp5. lra.
  - apply Qle_lt_trans with (clock w5); [|exact Hc6]. unfold now in Hclock. lra.
Qed.

Lemma calls_history (n : nat) w0 :
  burst_limit (limiter w0) = Config.BURST_RATE_LIMIT ->
  window (limiter w0) = Config.BURST_WINDOW ->
  request_times (limiter w0) = [] ->
  exists w,
    calls env n w0 = (Returns tt, w)
    /\ burst_inv 50 w
    /\ window (limiter w) = Config.BURST_WINDOW
    /\ history_inv (dispatched env n w0) w.
Proof.
  intros Hb Hw Ht. induction n as [|k (w & Hrun & Hinv & Hwin & dropped & Hhist & Hdrop)].
  - exists w0. split; [reflexivity|]. split; [|split; [exact Hw|]].
    + split; [exact Hb|]. left. rewrite Ht. simpl. lia.
    + exists []. rewrite Ht. split; [reflexivity|]. intros x [].
  - destruct (wait_if_needed_step 50 w ltac:(lia) Hinv)
      as (w' & older & Hstep & Hinv' & Hwin' & _).
    destruct (wait_if_needed_prunes w w' Hstep)
      as (popped & kept & Hsplit & Hkept & Hstale & Hlater).
    exists w'. cbn [calls dispatched]. rewrite Hrun.
    split; [exact Hstep|]. split; [exact Hinv'|]. split; [congruence|].
    rewrite Hstep. cbn [snd].
    exists (dropped ++ popped)%list. split.
    + rewrite Hhist, Hsplit, Hkept. by rewrite <- !app_assoc.
    + rewrite Hwin'. intros x [Hx|Hx]%in_app_or.
      * specialize (Hdrop x Hx). lra.
      * by apply Hstale.
Qed.
End Limiter.

(** [RateLimiter()] starts with the configured limit and window and an empty
    deque. *)
Lemma RateLimiter_init_fresh (env : Env) (w : World) :
  exists rl w',
    RateLimiter_init env w = (Returns rl, w')
    /\ burst_limit rl = Config.BURST_RATE_LIMIT
    /\ window rl = Config.BURST_WINDOW
    /\ request_times rl = [].
Proof. eexists _, _. split; [reflexivity|]. repeat split. Qed.

(** C4, as amended. For every number of calls made one after the other by
    a single caller on a limiter built with the configured burst limit 50
    and window 10, each reading of the clock being later than the one
    before: every call returns and records the time at which it was let
    through; and of all the times at which calls were let through so far,
    whether the deque still holds them or not, at most 50 lie in the ten
    seconds that end there. *)
Theorem burst_limit_respected (env : Env) (w0 : World) (n : nat) :
  (forall k, 0 < elapse env k) ->
  burst_limit (limiter w0) = Config.BURST_RATE_LIMIT ->
  window (limiter w0) = Config.BURST_WINDOW ->
  request_times (limiter w0) = [] ->
  exists w older,
    calls env (Datatypes.S n) w0 = (Returns tt, w)
    /\ request_times (limiter w) = (older ++ [clock w])%list
    /\ dispatched env (Datatypes.S n) w0 = (dispatched env n w0 ++ [clock w])%list
    /\ (length (List.filter (in_window 10 (clock w)) (dispatched env (Datatypes.S n) w0))
        <= 50)%nat
    /\ (length (List.filter (in_window 10 (clock w)) (request_times (limiter w)))
        <= 50)%nat.
Proof.
  intros Hpos Hb Hw Ht.
  destruct (calls_history env Hpos n w0 Hb Hw Ht) as (w & Hrun & Hinv & Hwin & _).
  destruct (calls_history env Hpos (Datatypes.S n) w0 Hb Hw Ht)
    as (w' & Hrun' & Hinv' & Hwin' & dropped & Hhist & Hdrop).
  destruct (wait_if_needed_step env Hpos 50 w ltac:(lia) Hinv)
    as (w2 & older & Hstep & _ & _ & Htimes & Hrecent).
  assert (w2 = w') as ->.
  { cbn [calls] in Hrun'. rewrite Hrun, Hstep in Hrun'. by injection Hrun'. }
  unfold recent_requests in Hrecent. rewrite Hwin' in Hrecent.
  unfold Config.BURST_WINDOW in Hrecent.
  exists w', older. split; [exact Hrun'|]. split; [exact Htimes|].
  split; [cbn [dispatched]; by rewrite Hrun'|]. split; [|lia].
  rewrite Hhist, List.filter_app, length_app.
  rewrite Hwin' in Hdrop. unfold Config.BURST_WINDOW in Hdrop.
  rewrite (filter_stale 10 (clock w') dropped Hdrop). simpl. lia.
Qed.

Lemma burst_limit_respected_witness :
  (forall k, 0 < elapse steady_env k)
  /\ burst_limit (limiter fresh_world) = Config.BURST_RATE_LIMIT
  /\ window (limiter fresh_world) = Config.BURST_WINDOW
  /\ request_times (limiter fresh_world) = []
  /\ exists w older,
       calls steady_env 3 fresh_world = (Returns tt, w)
       /\ request_times (limiter w) = (older ++ [clock w])%list
       /\ (length (List.filter (in_window 10 (clock w)) (dispatched steady_env 3 fresh_world))
           <= 50)%nat.
Proof.
  split; [intros k; reflexivity|]. split; [reflexivity|]. split; [reflexivity|].
  split; [reflexivity|].
  destruct (burst_limit_respected steady_env fresh_world 2)
    as (w & older & Hrun & Htimes & _ & Hcount & _);
    [intros k; reflexivity|reflexivity..|].
  exists w, older. split; [exact Hrun|]. split; [exact Htimes|exact Hcount].
Defined.

(** C4, as the specification words it, without the condition on the clock.
    Fifty calls are let through in the first second.  The next call reads,
    on line 83, the time exactly one window after the oldest of them: it
    neither drops that timestamp nor waits; its second reading, on line
    122, is the same again, and of the times at which calls were let
    through, 51 lie in the ten seconds that end there. *)
Lemma repeated_reading_at_the_boundary :
  elapse stalling_env 101 == 0
  /\ calls stalling_env 51 fresh_world
     = (Returns tt, (calls stalling_env 51 fresh_world).2)
  /\ length (List.filter
               (in_window 10 (clock (calls stalling_env 51 fresh_world).2))
               (dispatched stalling_env 51 fresh_world))
     = 51%nat.
Proof. split; [vm_compute; reflexivity|]. split; vm_compute; reflexivity. Qed.

(** * Tokens *)

Section Respects.
Variable R : World -> World -> Prop.
Hypothesis R_refl : forall w, R w w.
Hypothesis R_trans : forall a b c, R a b -> R b c -> R a c.

Lemma respects_ret {A} (a : A) : respects R (ret a).
Proof. intros w r w' [= <- <-]. apply R_refl. Qed.

Lemma respects_raise {A} e : respects R (@raise World A e).
Proof. intros w r w' [= <- <-]. apply R_refl. Qed.

Lemma respects_gets {A} (f : World -> A) : respects R (gets f).
Proof. intros w r w' [= <- <-]. apply R_refl. Qed.

Lemma respects_bind {A B} (m : M World A) (k : A -> M World B) :
  respects R m -> (forall a, respects R (k a)) -> respects R (bind m k).
Proof.
  intros Hm Hk w r w' H. unfold bind in H.
  destruct (m w) as [[a|e] w1] eqn:E.
  - eapply R_trans; [eapply Hm, E | eapply Hk, H].
  - injection H as <- <-. eapply Hm, E.
Qed.

Lemma respects_try_except {A} (block : M World A) handler :
  respects R block -> (forall e, respects R (handler e)) ->
  respects R (try_except block handler).
Proof.
  intros Hm Hk w r w' H. unfold try_except in H.
  destruct (block w) as [[a|e] w1] eqn:E.
  - injection H as <- <-. eapply Hm, E.
  - eapply R_trans; [eapply Hm, E | eapply Hk, H].
Qed.

Lemma respects_retry_loop {A} (sleep : Q -> M World unit) wait (fn : M World A) :
  (forall s, respects R (sleep s)) -> respects R fn ->
  forall remaining attempt,
    respects R (Tenacity.retry_loop sleep wait remaining attempt fn).
Proof.
  intros Hs Hf remaining.
  induction remaining as [|n IH]; intros attempt w r w' H; simpl in H.
  - destruct (fn w) as [[a|e] w1] eqn:E; injection H as <- <-; eapply Hf, E.
  - destruct (fn w) as [[a|e] w1] eqn:E.
    + injection H as <- <-. eapply Hf, E.
    + destruct (sleep (wait attempt) w1) as [[[]|e'] w2] eqn:E2.
      * eapply R_trans; [eapply Hf, E|].
        eapply R_trans; [eapply Hs, E2|]. eapply IH, H.
      * injection H as <- <-.
        eapply R_trans; [eapply Hf, E|eapply Hs, E2].
Qed.
End Respects.



Lemma step_weaken w w' : step true w w' -> step false w w'.
Proof. intros (? & ? & ? & _). split; [done|]. split; [done|]. split; done. Qed.

Section Token.
Variable env : Env.
Hypothesis time_flows : forall k, (0 <= elapse env k)%Q.











































End Token.



(** * Names and slugs, continued *)

Lemma sfilter_all p s : Py.sforall p s = true -> Py.sfilter p s = s.
Proof.
  induction s as [|c s IH]; simpl; [done|].
  intros [Hc Hs]%andb_true_iff. rewrite Hc, IH; done.
Qed.

Lemma smap_fixed f s :
  Py.sforall (fun c => Ascii.eqb (f c) c) s = true -> Py.smap f s = s.
Proof.
  induction s as [|c s IH]; simpl; [done|].
  intros [Hc Hs]%andb_true_iff. apply Ascii.eqb_eq in Hc. rewrite Hc, IH; done.
Qed.

Lemma sforall_In p s :
  (forall c, In c (list_ascii_of_string s) -> p c = true) -> Py.sforall p s = true.
Proof.
  induction s as [|c s IH]; simpl; [done|].
  intros H. rewrite (H c) by auto. simpl. apply IH. auto.
Qed.

(** X1. A sanitised name is left as it is by a second pass: the slug stored
    in the manifest can be sanitised again without changing. *)
Lemma sanitize_name_idempotent name :
  sanitize_name (sanitize_name name) = sanitize_name name.
Proof.
  pose proof (sanitize_name_chars name) as Hsafe.
  pose proof (sanitize_name_nonempty name) as Hne.
  set (s := sanitize_name name) in *.
  unfold sanitize_name. cbv zeta. unfold Py.replace_char.
  rewrite (smap_fixed _ s).
  2:{ apply sforall_In. intros c Hc. destruct (Hsafe c Hc) as (Hsp & _ & _).
      destruct (Ascii.eqb_spec c " "); [done|].
      apply Ascii.eqb_refl. }
  rewrite (sfilter_all _ s).
  2:{ apply sforall_In. intros c Hc. destruct (Hsafe c Hc) as (_ & Hf & _).
      destruct (is_forbidden c) eqn:E; [|done].
      apply is_forbidden_spec in E. done. }
  rewrite (sfilter_all _ s).
  2:{ apply sforall_In. intros c Hc. destruct (Hsafe c Hc) as (_ & _ & Ha).
      unfold Py.is_ascii. by apply N.ltb_lt. }
  unfold Py.or_else. destruct s; [done|reflexivity].
Qed.

Lemma lstrip_blank s : Py.sforall Py.isspace s = true -> Py.lstrip s = EmptyString.
Proof.
  induction s as [|c s IH]; simpl; [done|].
  intros [Hc Hs]%andb_true_iff. rewrite Hc. auto.
Qed.

(** X2. A name made of white space only (the empty name included) is
    displayed as "Unknown Student". *)
Lemma blank_name_unknown full_name :
  Py.sforall Py.isspace full_name = true ->
  parse_display_name full_name = "Unknown Student".
Proof.
  intros H. unfold parse_display_name, Py.strip. rewrite (lstrip_blank _ H).
  simpl. by rewrite orb_true_r.
Qed.

Lemma blank_name_unknown_witness :
  Py.sforall Py.isspace "   " = true
  /\ parse_display_name "   " = "Unknown Student".
Proof. split; [reflexivity|]. apply blank_name_unknown. reflexivity. Defined.

Lemma lstrip_word s : Py.sforall not_space s = true -> Py.lstrip s = s.
Proof.
  destruct s as [|c s]; simpl; [done|].
  intros [Hc _]%andb_true_iff. unfold not_space in Hc.
  by destruct (Py.isspace c).
Qed.

Lemma rstrip_word s : Py.sforall not_space s = true -> Py.rstrip s = s.
Proof.
  induction s as [|c s IH]; simpl; [done|].
  intros [Hc Hs]%andb_true_iff. rewrite (IH Hs). unfold not_space in Hc.
  destruct s; [by destruct (Py.isspace c)|done].
Qed.

Lemma append_cons a s t : String a s +:+ t = String a (s +:+ t).
Proof. reflexivity. Qed.

Lemma append_assoc_char cur c s :
  (cur +:+ String c EmptyString) +:+ s = cur +:+ String c s.
Proof.
  induction cur as [|a cur IH]; [reflexivity|].
  rewrite !append_cons. f_equal. exact IH.
Qed.

Lemma append_empty_r s : s +:+ EmptyString = s.
Proof. induction s as [|a s IH]; [done|]. by rewrite append_cons, IH. Qed.

Lemma split_from_word s : forall cur,
  Py.sforall not_space s = true ->
  Py.split_from cur s = if Py.truthy (cur +:+ s) then [cur +:+ s] else [].
Proof.
  induction s as [|c s IH]; intros cur; simpl.
  - intros _. assert (cur +:+ EmptyString = cur) as ->; [|done].
    induction cur as [|a cur IHc]; [reflexivity|].
    rewrite append_cons. by rewrite IHc.
  - intros [Hc Hs]%andb_true_iff. unfold not_space in Hc.
    destruct (Py.isspace c); [done|].
    rewrite (IH _ Hs). by rewrite append_assoc_char.
Qed.

Lemma special_name_has_space name special :
  SPECIAL_NAME_CASES !! name = Some special ->
  Py.sforall not_space name = false.
Proof.
  intros H. apply elem_of_list_to_map_2 in H.
  apply elem_of_cons in H as [[= -> ->]|H]; [reflexivity|].
  apply elem_of_cons in H as [[= -> ->]|H]; [reflexivity|].
  by apply elem_of_nil in H.
Qed.

Lemma plain_word_not_space name :
  Py.sforall plain_word_char name = true -> Py.sforall not_space name = true.
Proof.
  induction name as [|c name IH]; simpl; [done|].
  intros [[_ Hc]%andb_true_iff Hs]%andb_true_iff. by rewrite Hc, IH.
Qed.

(** X3. A name of one ASCII word, with no white space in it or around it,
    is displayed as its preferred form when it has one and as itself
    otherwise; no initial is added. *)
Lemma single_word_name name :
  name <> EmptyString ->
  Py.sforall plain_word_char name = true ->
  parse_display_name name = dict_get PREFERRED_NAMES name name.
Proof.
  intros Hne Hw%plain_word_not_space. unfold parse_display_name, Py.strip.
  rewrite (lstrip_word _ Hw), (rstrip_word _ Hw).
  destruct (SPECIAL_NAME_CASES !! name) as [special|] eqn:Hsp.
  { apply special_name_has_space in Hsp. congruence. }
  destruct name as [|c name]; [done|]. simpl.
  unfold generic_display_name, Py.split.
  rewrite (split_from_word _ EmptyString Hw). reflexivity.
Qed.

Lemma single_word_name_witness :
  "Shiyang" <> EmptyString
  /\ Py.sforall plain_word_char "Shiyang" = true
  /\ parse_display_name "Shiyang" = "April".
Proof.
  split; [discriminate|]. split; [reflexivity|].
  rewrite single_word_name; [reflexivity|discriminate|reflexivity].
Defined.

Lemma lower_char_not_upper c : Py.is_upper (Py.lower_char c) = false.
Proof. destruct c as [[] [] [] [] [] [] [] []]; reflexivity. Qed.

Lemma sforall_smap p f s :
  (forall c, p (f c) = true) -> Py.sforall p (Py.smap f s) = true.
Proof. intros H. induction s as [|c s IH]; simpl; [done|]. by rewrite H, IH. Qed.

Lemma sforall_lstrip p s : Py.sforall p s = true -> Py.sforall p (Py.lstrip s) = true.
Proof.
  induction s as [|c s IH]; simpl; [done|].
  intros [Hc Hs]%andb_true_iff. destruct (Py.isspace c); [auto|].
  simpl. by rewrite Hc, Hs.
Qed.

Lemma sforall_rstrip p s : Py.sforall p s = true -> Py.sforall p (Py.rstrip s) = true.
Proof.
  induction s as [|c s IH]; simpl; [done|].
  intros [Hc Hs]%andb_true_iff. specialize (IH Hs).
  destruct (Py.rstrip s) eqn:E.
  - destruct (Py.isspace c); simpl; [done|]. by rewrite Hc.
  - simpl in *. by rewrite Hc, IH.
Qed.

Lemma sforall_sfilter p q s :
  Py.sforall p s = true -> Py.sforall p (Py.sfilter q s) = true.
Proof.
  induction s as [|c s IH]; simpl; [done|].
  intros [Hc Hs]%andb_true_iff. destruct (q c); simpl; [by rewrite Hc, IH|auto].
Qed.

Lemma collapse_runs_spec s : forall in_run,
  Py.sforall (fun c => negb (Py.is_upper c)) s = true ->
  Py.sforall slug_char (collapse_runs in_run s) = true
  /\ adjacent_dashes (collapse_runs in_run s) = false
  /\ (in_run = true -> starts_with_dash (collapse_runs in_run s) = false).
Proof.
  induction s as [|c s IH]; intros in_run; simpl; [done|].
  intros [Hc Hs]%andb_true_iff.
  destruct (is_dash_or_space c) eqn:Hd.
  - destruct in_run.
    + apply (IH true Hs).
    + destruct (IH true Hs) as (H1 & H2 & H3). specialize (H3 eq_refl).
      split; [simpl; by rewrite H1|]. split; [|done].
      simpl. destruct (collapse_runs true s) as [|b rest] eqn:E; [done|].
      simpl in H3. rewrite H3. simpl. exact H2.
  - destruct (IH false Hs) as (H1 & H2 & _).
    assert (Hnd : Ascii.eqb c "-" = false /\ Py.isspace c = false).
    { unfold is_dash_or_space in Hd. by apply orb_false_iff in Hd. }
    destruct Hnd as [Hdash Hsp].
    split; [simpl; unfold slug_char at 1; by rewrite Hsp, Hc, H1|].
    split; [|intros _; simpl; exact Hdash].
    simpl. destruct (collapse_runs false s) as [|b rest] eqn:E; [done|].
    rewrite Hdash. simpl. exact H2.
Qed.

(** X4. A slug holds no ASCII white space and no ASCII capital, and never
    two dashes in a row. *)
Lemma slugify_shape text :
  Py.sforall slug_char (slugify text) = true
  /\ adjacent_dashes (slugify text) = false.
Proof.
  unfold slugify.
  assert (H : Py.sforall (fun c => negb (Py.is_upper c))
                (Py.sfilter (fun c => is_word c || is_dash_or_space c)
                   (Py.strip (Py.lower text))) = true).
  { apply sforall_sfilter. unfold Py.strip. apply sforall_rstrip, sforall_lstrip.
    unfold Py.lower. apply sforall_smap. intros c. by rewrite lower_char_not_upper. }
  destruct (collapse_runs_spec _ false H) as (H1 & H2 & _). done.
Qed.

(** * Entry pages, continued *)

Lemma first_pattern_sound es pats p :
  first_pattern es pats = Some p -> In p pats /\ is_file_in es p = true.
Proof. unfold first_pattern. apply find_some. Qed.

Lemma first_pattern_none es pats :
  first_pattern es pats = None <-> forall p, In p pats -> is_file_in es p = false.
Proof.
  unfold first_pattern. split.
  - intros H p Hp. by apply (find_none _ _ H).
  - intros H. induction pats as [|q pats IH]; simpl; [done|].
    rewrite (H q) by (simpl; auto). apply IH. intros p Hp. apply H. simpl; auto.
Qed.

Lemma first_hit_sound visits rel p :
  first_hit visits = Some (rel, p) ->
  exists es pats, In (rel, es, pats) visits /\ In p pats /\ is_file_in es p = true.
Proof.
  induction visits as [|[[r es] pats] visits IH]; simpl; [done|].
  destruct (first_pattern es pats) as [q|] eqn:E.
  - intros [= <- <-]. apply first_pattern_sound in E as [? ?].
    exists es, pats. auto.
  - intros H. destruct (IH H) as (es' & pats' & ? & ? & ?).
    exists es', pats'. auto.
Qed.

Lemma first_hit_none visits :
  first_hit visits = None <->
  forall rel es pats p, In (rel, es, pats) visits -> In p pats -> is_file_in es p = false.
Proof.
  induction visits as [|[[r es] pats] visits IH]; simpl.
  - split; [intros _ ? ? ? ? []|done].
  - destruct (first_pattern es pats) as [q|] eqn:E.
    + split; [done|]. intros H. apply first_pattern_sound in E as [Hq Hf].
      rewrite (H r es pats q) in Hf; auto. done.
    + rewrite IH. split.
      * intros H rel es' pats' p [[= <- <- <-]|Hin] Hp.
        -- by apply (proj1 (first_pattern_none es pats) E).
        -- eauto.
      * intros H rel es' pats' p Hin Hp. eauto.
Qed.

Lemma visible_dir_Some n x es :
  visible_dir n x = Some es <-> x = Dir es /\ Py.startswith n "." = false.
Proof.
  unfold visible_dir. destruct x as [c|es'].
  - split; [done|]. by intros [? _].
  - destruct (Py.startswith n "."); split; try done.
    + by intros [_ ?].
    + by intros [= ->].
    + by intros [[= ->] _].
Qed.

Lemma In_visible_visits rel l r es pats :
  In (r, es, pats) (visible_visits rel l) <->
  exists n, visible_subdir l n es /\ r = rel n /\ pats = patterns.
Proof.
  unfold visible_visits. rewrite in_flat_map. split.
  - intros [[n x] [Hin Hv]]. destruct (visible_dir n x) as [es'|] eqn:E; [|done].
    destruct Hv as [[= <- <- <-]|[]]. apply visible_dir_Some in E as [-> ?].
    exists n. split; [by split|done].
  - intros (n & [Hin Hs] & -> & ->). exists (n, Dir es). split; [done|].
    assert (visible_dir n (Dir es) = Some es) as -> by by apply visible_dir_Some.
    by left.
Qed.

Lemma In_subdir_visits l r es pats :
  In (r, es, pats) (subdir_visits l) <->
  pats = patterns /\
  ((visible_subdir l r es) \/
   exists n es1 n2, visible_subdir l n es1 /\ visible_subdir es1 n2 es
                    /\ r = n +:+ "/" +:+ n2).
Proof.
  unfold subdir_visits. rewrite in_flat_map. split.
  - intros [[n x] [Hin Hv]]. destruct (visible_dir n x) as [es'|] eqn:E; [|done].
    apply visible_dir_Some in E as [-> ?].
    destruct Hv as [[= <- <- <-]|Hv].
    + split; [done|]. by left.
    + apply In_visible_visits in Hv as (n2 & ? & -> & ->).
      split; [done|]. right. exists n, es', n2.
      split; [by split|]. by split.
  - intros [-> [[Hin Hs]|(n & es1 & n2 & [Hin Hs] & H2 & ->)]].
    + exists (r, Dir es). split; [done|].
      assert (visible_dir r (Dir es) = Some es) as -> by by apply visible_dir_Some.
      by left.
    + exists (n, Dir es1). split; [done|].
      assert (visible_dir n (Dir es1) = Some es1) as -> by by apply visible_dir_Some.
      right. apply In_visible_visits. by exists n2.
Qed.

Lemma entry_at_visit d rel p :
  entry_at d rel p <->
  exists es pats, In (rel, es, pats) (visit_order d) /\ In p pats /\ is_file_in es p = true.
Proof.
  unfold visit_order. cbn [app]. split.
  - intros [q [Hq|Hq] Hf|n es q Hv Hq Hf|n es n2 es2 q Hv Hv2 Hq Hf].
    + exists d, patterns. split; [by left|done].
    + exists d, fallback_patterns. split; [|done].
      right. apply in_or_app. right. by left.
    + exists es, patterns. split; [|done]. right. apply in_or_app. left.
      apply In_subdir_visits. split; [done|]. by left.
    + exists es2, patterns. split; [|done]. right. apply in_or_app. left.
      apply In_subdir_visits. split; [done|]. right. by exists n, es, n2.
  - intros (es & pats & Hin & Hp & Hf).
    destruct Hin as [[= <- <- <-]|Hin]; [apply entry_root; auto|].
    apply in_app_or in Hin as [Hin|[[= <- <- <-]|[]]]; [|apply entry_root; auto].
    apply In_subdir_visits in Hin as [-> [Hv|(n & es1 & n2 & Hv & Hv2 & ->)]].
    + by eapply entry_sub.
    + by eapply entry_subsub.
Qed.

(** X5. The page that the search returns is there: a regular file under
    one of the index names at the root, in a directory of the root or in a
    directory of such a directory, neither name starting with a dot; or a
    regular file under one of the fallback names at the root. *)
Lemma find_entry_page_sound d rel p :
  find_entry_page d = Some (rel, p) -> entry_at d rel p.
Proof.
  rewrite find_entry_page_visit_order. intros H.
  apply entry_at_visit. by apply first_hit_sound.
Qed.

Lemma find_entry_page_sound_witness :
  find_entry_page nested_first = Some ("a/x", "index.html")
  /\ entry_at nested_first "a/x" "index.html".
Proof.
  split; [reflexivity|]. apply find_entry_page_sound. reflexivity.
Defined.

(** X6. The search finds nothing exactly when no such file exists: a page
    three levels down, below a directory whose name starts with a dot, or
    under a fallback name outside the root is not found. *)
Lemma find_entry_page_none d :
  find_entry_page d = None <-> forall rel p, ~ entry_at d rel p.
Proof.
  rewrite find_entry_page_visit_order, first_hit_none. split.
  - intros H rel p (es & pats & Hin & Hp & Hf)%entry_at_visit.
    rewrite (H _ _ _ _ Hin Hp) in Hf. done.
  - intros H rel es pats p Hin Hp. destruct (is_file_in es p) eqn:E; [|done].
    exfalso. apply (H rel p). apply entry_at_visit. by exists es, pats.
Qed.

(** * Extraction, continued *)

Lemma startswith_contains s p : Py.startswith s p = true -> Py.contains p s = true.
Proof.
  unfold Py.startswith, Py.contains. intros H.
  destruct s as [|b s]; simpl.
  - destruct p; [done|discriminate].
  - simpl in H. by rewrite H.
Qed.

(** X7. A member is excluded exactly when one of the patterns occurs
    somewhere in its name: the test on the start of the name adds nothing,
    and the patterns are substrings, not globs. *)
Lemma should_exclude_substring globs nm :
  should_exclude globs nm = existsb (fun pattern => Py.contains pattern nm) globs.
Proof.
  unfold should_exclude. induction globs as [|g globs IH]; simpl; [done|].
  rewrite IH. f_equal.
  destruct (Py.contains g nm) eqn:E; [done|]. simpl.
  destruct (Py.startswith nm g) eqn:E2; [|done].
  apply startswith_contains in E2. congruence.
Qed.


Lemma split_on_from_plain sep s : forall cur,
  ~ In sep (list_ascii_of_string s) ->
  Py.split_on_from sep cur s = [cur +:+ s].
Proof.
  induction s as [|c s IH]; intros cur Hn; simpl.
  - by rewrite append_empty_r.
  - destruct (Ascii.eqb_spec c sep) as [->|Hne].
    + destruct Hn. by left.
    + rewrite IH by (intros ?; apply Hn; by right). by rewrite append_assoc_char.
Qed.

Lemma sanitize_name_no_slash name :
  ~ In "/"%char (list_ascii_of_string (sanitize_name name)).
Proof.
  intros H. apply sanitize_name_chars in H as (_ & Hf & _).
  apply Hf. unfold forbidden_chars. simpl. tauto.
Qed.

Lemma parse_component s :
  ~ In "/"%char (list_ascii_of_string s) -> s <> EmptyString ->
  PurePath.parse s
  = {| PurePath.absolute := false;
       PurePath.parts := if String.eqb s "." then [] else [s] |}.
Proof.
  intros Hn Hne. unfold PurePath.parse. f_equal.
  - destruct s as [|c s]; [done|]. unfold Py.startswith.
    change (String.prefix "/" (String c s))
      with (if ascii_dec "/"%char c then String.prefix EmptyString s else false).
    destruct (ascii_dec "/"%char c) as [<-|?]; [|done].
    destruct Hn. by left.
  - unfold Py.split_on. rewrite (split_on_from_plain _ _ _ Hn).
    change (EmptyString +:+ s) with s. cbn [List.filter]. unfold PurePath.keep_part.
    destruct s as [|c s]; [done|]. unfold Py.truthy.
    destruct (String.eqb (String c s) "."); reflexivity.
Qed.

Section MorePlaces.
Variable cwd : list string.
Variable untar : string -> Result (list TarInfo).
Variable unzstd : string -> Result string.



Lemma emptied_destination dest d :
  is_directory (resolved cwd dest) d ->
  exists fresh,
    recreate_destination cwd dest d = (Returns tt, fresh)
    /\ (forall p, resolved cwd dest `prefix_of` p -> files fresh !! p = None)
    /\ (forall p, outside (resolved cwd dest) p -> files fresh !! p = files d !! p)
    /\ dirs fresh = filter (outside (resolved cwd dest)) (dirs d)
                    ∪ self_and_parents (resolved cwd dest)
    /\ log fresh = log d.
Proof.
  intros H. eexists. split; [apply (recreate_destination_run cwd dest d H)|].
  simpl. split; [|split; [|done]].
  - intros p Hp. apply map_lookup_filter_None. right. intros c _ Hout. by apply Hout.
  - intros p Hout. destruct (files d !! p) as [c|] eqn:Hc.
    + by apply map_lookup_filter_Some.
    + apply map_lookup_filter_None. by left.
Qed.

(** X9. An archive that is neither [.zst] nor [.tar] raises [ValueError],
    and only after the destination was emptied: the prior contents are
    gone, the rest of the disk is as before. *)
Lemma unsupported_archive_after_wipe dry zst_file dest d :
  is_directory (resolved cwd dest) d ->
  suffix zst_file <> ".zst" ->
  suffix zst_file <> ".tar" ->
  exists d',
    _extract_assignment cwd untar unzstd dry zst_file dest d = (Raises unsupported, d')
    /\ (forall p, resolved cwd dest `prefix_of` p -> files d' !! p = None)
    /\ (forall p, outside (resolved cwd dest) p -> files d' !! p = files d !! p).
Proof.
  intros Hdir Hz Ht. rewrite extract_assignment_unfold.
  destruct (emptied_destination dest (warn DEBUG "Extracting" d) Hdir)
    as (fresh & -> & Hin & Hout & _).
  exists fresh. split; [|done].
  unfold unpack_archive.
  destruct (String.eqb_spec (suffix zst_file) ".zst"); [done|].
  destruct (String.eqb_spec (suffix zst_file) ".tar"); [done|].
  reflexivity.
Qed.


(** X10. In a dry run the destination is emptied all the same and nothing
    is unpacked into it; a [.tar] file beside the archive that bears its
    name is removed as well.  The path of that [.tar] is not a directory
    ([unlink] would raise on one). *)
Lemma dry_run_wipes zst_file tar_file dest d :
  is_directory (resolved cwd dest) d ->
  suffix zst_file = ".zst" ->
  with_suffix zst_file ".tar" = Returns tar_file ->
  resolved cwd tar_file ∉ dirs d ∪ self_and_parents (resolved cwd dest) ->
  exists d',
    _extract_assignment cwd untar unzstd true zst_file dest d = (Returns tt, d')
    /\ (forall p, resolved cwd dest `prefix_of` p -> files d' !! p = None)
    /\ files d' !! resolved cwd tar_file = None
    /\ (forall p, outside (resolved cwd dest) p -> p <> resolved cwd tar_file ->
          files d' !! p = files d !! p).
Proof.
  intros Hdir Hz Hw Hnd. rewrite extract_assignment_unfold.
  destruct (emptied_destination dest (warn DEBUG "Extracting" d) Hdir)
    as (fresh & -> & Hin & Hout & Hdirs & _).
  unfold unpack_archive. rewrite Hz. cbn [String.eqb Ascii.eqb Bool.eqb].
  rewrite Hw. unfold lift_result, _decompress_zstd, _extract_tar_inclusive.
  unfold bind at 1. unfold bind at 1. unfold logger at 1, modify at 1.
  unfold bind at 1. unfold logger at 1, modify at 1.
  unfold bind at 1. unfold gets at 1.
  cbv beta iota. cbn [files dirs log].
  match goal with |- context [path_exists ?q ?x] => destruct (path_exists q x) eqn:Hex end.
  - eexists. split; [reflexivity|]. cbn [files]. split; [|split].
    + intros p Hp. rewrite lookup_delete_None. right. by apply Hin.
    + apply lookup_delete_eq.
    + intros p Hp Hne. rewrite lookup_delete_ne by done. by apply Hout.
  - eexists. split; [reflexivity|]. cbn [files]. split; [done|]. split; [|by intros; apply Hout].
    unfold path_exists in Hex. cbn [files dirs] in Hex.
    apply orb_false_iff in Hex as [_ Hex]. apply bool_decide_eq_false_1 in Hex.
    destruct (files fresh !! resolved cwd tar_file) eqn:E; [|done].
    destruct Hex. eauto.
Qed.


End MorePlaces.


Lemma unsupported_archive_after_wipe_witness :
  is_directory (resolved demo_cwd demo_dest) (demo_disk "old")
  /\ suffix demo_zip <> ".zst"
  /\ suffix demo_zip <> ".tar"
  /\ exists d',
       _extract_assignment demo_cwd demo_untar demo_unzstd false demo_zip demo_dest
         (demo_disk "old") = (Raises unsupported, d')
       /\ files d' !! ["srv"; "about-me"; "build"; "7A"; "ada"; "old.html"] = None.
Proof.
  assert (H1 : is_directory (resolved demo_cwd demo_dest) (demo_disk "old"))
    by (apply demo_dest_is_directory; reflexivity).
  assert (H2 : suffix demo_zip <> ".zst") by (vm_compute; discriminate).
  assert (H3 : suffix demo_zip <> ".tar") by (vm_compute; discriminate).
  split; [exact H1|]. split; [exact H2|]. split; [exact H3|].
  destruct (unsupported_archive_after_wipe demo_cwd demo_untar demo_unzstd false
              demo_zip demo_dest (demo_disk "old") H1 H2 H3) as (d' & Hrun & Hin & _).
  exists d'. split; [exact Hrun|]. apply Hin. by exists ["old.html"].
Defined.

Lemma demo_tar_beside_destination (d : Disk) :
  dirs d = self_and_parents ["srv"; "about-me"; "build"; "7A"; "ada"] ->
  resolved demo_cwd demo_tar
  ∉ dirs d ∪ self_and_parents (resolved demo_cwd demo_dest).
Proof.
  intros Hd H. rewrite Hd in H.
  apply elem_of_union in H as [H|H]; apply self_and_parents_spec in H;
    destruct H as [k Hk]; vm_compute in Hk; discriminate Hk.
Qed.

Lemma dry_run_wipes_witness :
  is_directory (resolved demo_cwd demo_dest) (demo_disk "old")
  /\ suffix demo_zst = ".zst"
  /\ with_suffix demo_zst ".tar" = Returns demo_tar
  /\ (resolved demo_cwd demo_tar
      ∉ dirs (demo_disk "old") ∪ self_and_parents (resolved demo_cwd demo_dest))
  /\ exists d',
       _extract_assignment demo_cwd demo_untar demo_unzstd true demo_zst demo_dest
         (demo_disk "old") = (Returns tt, d')
       /\ files d' !! ["srv"; "about-me"; "build"; "7A"; "ada"; "old.html"] = None
       /\ files d' !! resolved demo_cwd demo_tar = None.
Proof.
  assert (H1 : is_directory (resolved demo_cwd demo_dest) (demo_disk "old"))
    by (apply demo_dest_is_directory; reflexivity).
  assert (H2 : suffix demo_zst = ".zst") by reflexivity.
  assert (H3 : with_suffix demo_zst ".tar" = Returns demo_tar) by reflexivity.
  pose proof (demo_tar_beside_destination (demo_disk "old") eq_refl) as H4.
  split; [exact H1|]. split; [exact H2|]. split; [exact H3|]. split; [exact H4|].
  destruct (dry_run_wipes demo_cwd demo_untar demo_unzstd demo_zst demo_tar demo_dest
              (demo_disk "old") H1 H2 H3 H4) as (d' & Hrun & Hin & Htar & _).
  exists d'. split; [exact Hrun|]. split; [|exact Htar].
  apply Hin. by exists ["old.html"].
Defined.


(** * The rate limiter, continued *)

Section MoreLimiter.
Variable env : Env.

Lemma reset_daily_counter_run now w :
  exists w',
    reset_daily_counter now w = (Returns tt, w')
    /\ clock w' = clock w /\ ticks w' = ticks w /\ trace w' = trace w
    /\ request_times (limiter w') = request_times (limiter w)
    /\ burst_limit (limiter w') = burst_limit (limiter w)
    /\ window (limiter w') = window (limiter w)
    /\ daily_limit (limiter w') = daily_limit (limiter w)
    /\ (daily_count (limiter w') = daily_count (limiter w)
        \/ daily_count (limiter w') = 0%Z).
Proof.
  unfold reset_daily_counter, bind, gets.
  destruct (Qle_bool (daily_reset_time (limiter w)) now);
    eexists; (split; [reflexivity|]); repeat split; auto.
Qed.

Lemma check_daily_limit_pass now w :
  (daily_count (limiter w) < daily_limit (limiter w))%Z ->
  check_daily_limit env now w = (Returns tt, w).
Proof.
  intros H. unfold check_daily_limit, bind, gets.
  by rewrite (proj2 (Z.leb_gt _ _) H).
Qed.

Lemma check_burst_limit_pass now w :
  (Z.of_nat (length (request_times (limiter w))) < burst_limit (limiter w))%Z ->
  check_burst_limit env now w = (Returns tt, w).
Proof.
  intros H. unfold check_burst_limit, bind, gets.
  by rewrite (proj2 (Z.leb_gt _ _) H).
Qed.

(** X12. Under both limits the limiter does not wait: the call returns
    after two readings of the clock, without a sleep, and the time of the
    second reading is the newest timestamp of the deque. *)
Lemma wait_if_needed_under_limits w :
  (daily_count (limiter w) < daily_limit (limiter w))%Z ->
  (0 < daily_limit (limiter w))%Z ->
  (Z.of_nat (length (request_times (limiter w))) < burst_limit (limiter w))%Z ->
  exists w' kept,
    wait_if_needed env w = (Returns tt, w')
    /\ trace w' = trace w
    /\ ticks w' = Datatypes.S (Datatypes.S (ticks w))
    /\ clock w' = clock w + elapse env (ticks w) + elapse env (Datatypes.S (ticks w))
    /\ request_times (limiter w') = (kept ++ [clock w'])%list.
Proof.
  intros Hd Hl Hb. unfold wait_if_needed.
  set (now := clock w + elapse env (ticks w)).
  set (w1 := {| clock := now; ticks := Datatypes.S (ticks w); http_calls := http_calls w;
                oauth_calls := oauth_calls w; trace := trace w; api := api w |}).
  rewrite (bind_returns _ _ w now w1) by reflexivity. cbv beta.
  destruct (reset_daily_counter_run now w1)
    as (w2 & Hrun2 & Hc2 & Hk2 & Htr2 & Ht2 & Hb2 & Hw2 & Hdl2 & Hdc2).
  rewrite (bind_returns _ _ _ _ _ Hrun2); cbv beta.
  assert (Hd2 : (daily_count (limiter w2) < daily_limit (limiter w2))%Z).
  { rewrite Hdl2. change (limiter w1) with (limiter w) in *. destruct Hdc2 as [-> | ->]; lia. }
  rewrite (bind_returns _ _ _ _ _ (check_daily_limit_pass now w2 Hd2)); cbv beta.
  unfold remove_old_requests at 1. unfold bind at 1, gets at 1.
  unfold bind at 1, update_limiter at 1, modify at 1.
  set (w3 := set_api _ w2).
  assert (Hb3 : (Z.of_nat (length (request_times (limiter w3))) < burst_limit (limiter w3))%Z).
  { unfold w3, limiter. cbn [set_api api set_rate_limiter rate_limiter set_request_times
      request_times burst_limit].
    fold (limiter w2). rewrite Hb2, Ht2. change (limiter w1) with (limiter w).
    pose proof (popleft_while_length (now - window (limiter w2)) (request_times (limiter w))).
    lia. }
  rewrite (bind_returns _ _ _ _ _ (check_burst_limit_pass now w3 Hb3)); cbv beta.
  exists (record_request env w3).2, (request_times (limiter w3)).
  split; [reflexivity|].
  unfold record_request, bind, time_time, update_limiter, modify, limiter, w3.
  cbn. rewrite Htr2, Hk2, Hc2. by repeat split.
Qed.

(** X13. With a burst limit of zero or less and an empty deque the call
    raises [IndexError]: the limit is met at once and there is no oldest
    request to wait for.  Nothing is recorded. *)
Lemma wait_if_needed_zero_burst w :
  (burst_limit (limiter w) <= 0)%Z ->
  request_times (limiter w) = [] ->
  (daily_count (limiter w) < daily_limit (limiter w))%Z ->
  (0 < daily_limit (limiter w))%Z ->
  exists w',
    wait_if_needed env w
    = (Raises (Exception "IndexError" "deque index out of range"), w')
    /\ request_times (limiter w') = [] /\ trace w' = trace w.
Proof.
  intros Hb Ht Hd Hl. unfold wait_if_needed.
  set (now := clock w + elapse env (ticks w)).
  set (w1 := {| clock := now; ticks := Datatypes.S (ticks w); http_calls := http_calls w;
                oauth_calls := oauth_calls w; trace := trace w; api := api w |}).
  rewrite (bind_returns _ _ w now w1) by reflexivity. cbv beta.
  destruct (reset_daily_counter_run now w1)
    as (w2 & Hrun2 & Hc2 & Hk2 & Htr2 & Ht2 & Hb2 & Hw2 & Hdl2 & Hdc2).
  rewrite (bind_returns _ _ _ _ _ Hrun2); cbv beta.
  assert (Hd2 : (daily_count (limiter w2) < daily_limit (limiter w2))%Z).
  { rewrite Hdl2. change (limiter w1) with (limiter w) in *. destruct Hdc2 as [-> | ->]; lia. }
  rewrite (bind_returns _ _ _ _ _ (check_daily_limit_pass now w2 Hd2)); cbv beta.
  unfold remove_old_requests at 1. unfold bind at 1, gets at 1.
  unfold bind at 1, update_limiter at 1, modify at 1.
  change (limiter w1) with (limiter w) in *. rewrite Ht2, Ht. cbn [popleft_while].
  set (w3 := set_api _ w2).
  unfold bind at 1. unfold check_burst_limit, bind, gets.
  assert (Hb3 : burst_limit (limiter w3) = burst_limit (limiter w)) by (rewrite <- Hb2; reflexivity).
  assert (Ht3 : request_times (limiter w3) = []) by reflexivity.
  rewrite Hb3, Ht3. cbn [length Z.of_nat].
  change (Z.of_nat 0) with 0%Z. rewrite (proj2 (Z.leb_le _ _) Hb).
  exists w3. split; [reflexivity|]. split; [done|]. exact Htr2.
Qed.

Lemma daily_frame_refl w : daily_frame w w.
Proof. by split. Qed.

Lemma daily_frame_trans a b c : daily_frame a b -> daily_frame b c -> daily_frame a c.
Proof. intros [? ?] [? ?]. split; congruence. Qed.

Lemma daily_frame_time_time : respects daily_frame (time_time env).
Proof. intros w r w' [= <- <-]. by split. Qed.

Lemma daily_frame_time_sleep s : respects daily_frame (time_sleep env s).
Proof.
  intros w r w'. unfold time_sleep. destruct (Qlt_bool s 0); intros [= <- <-]; by split.
Qed.

Lemma daily_frame_remove_old_requests now :
  respects daily_frame (remove_old_requests now).
Proof. intros w r w' [= <- <-]. by split. Qed.

Lemma daily_frame_check_burst_limit now :
  respects daily_frame (check_burst_limit env now).
Proof.
  unfold check_burst_limit.
  apply (respects_bind _ daily_frame_trans); [apply respects_gets, daily_frame_refl|].
  intros self. destruct (burst_limit self <=? _)%Z; [|apply respects_ret, daily_frame_refl].
  destruct (request_times self) as [|oldest rest]; [apply respects_raise, daily_frame_refl|].
  destruct (Qlt_bool 0 _); [|apply respects_ret, daily_frame_refl].
  apply (respects_bind _ daily_frame_trans); [apply daily_frame_time_sleep|]. intros _.
  apply (respects_bind _ daily_frame_trans); [apply daily_frame_time_time|]. intros t.
  apply daily_frame_remove_old_requests.
Qed.

Lemma check_daily_limit_daily now w w' :
  (1 <= daily_limit (limiter w))%Z ->
  check_daily_limit env now w = (Returns tt, w') ->
  daily_limit (limiter w') = daily_limit (limiter w)
  /\ (0 <= daily_count (limiter w) -> 0 <= daily_count (limiter w') < daily_limit (limiter w'))%Z.
Proof.
  intros Hl. unfold check_daily_limit, bind, gets.
  destruct (daily_limit (limiter w) <=? daily_count (limiter w))%Z eqn:E.
  - unfold time_sleep. destruct (Qlt_bool _ 0); [discriminate|].
    intros [= <-]. split; [reflexivity|]. intros _. unfold limiter in *. simpl. lia.
  - intros [= <-]. apply Z.leb_gt in E. split; [done|]. lia.
Qed.

Section Daily.
Hypothesis time_passes : forall k, 0 < elapse env k.

(** X14. The daily count stays within the daily limit: when the clock
    advances, the burst limit is at least one and the daily limit is at
    least one, a call returns with a count between one and the limit, and
    the limit is the same. *)
Lemma wait_if_needed_daily (L : Z) w :
  (1 <= L)%Z ->
  burst_inv L w ->
  (1 <= daily_limit (limiter w))%Z ->
  (0 <= daily_count (limiter w))%Z ->
  exists w',
    wait_if_needed env w = (Returns tt, w')
    /\ daily_limit (limiter w') = daily_limit (limiter w)
    /\ (1 <= daily_count (limiter w') <= daily_limit (limiter w'))%Z.
Proof.
  intros HL Hinv Hdl Hdc.
  destruct (wait_if_needed_step env time_passes L w HL Hinv) as (w' & older & Hrun & _).
  exists w'. split; [exact Hrun|].
  revert Hrun. unfold wait_if_needed.
  set (now := clock w + elapse env (ticks w)).
  set (w1 := {| clock := now; ticks := Datatypes.S (ticks w); http_calls := http_calls w;
                oauth_calls := oauth_calls w; trace := trace w; api := api w |}).
  rewrite (bind_returns _ _ w now w1) by reflexivity. cbv beta.
  destruct (reset_daily_counter_run now w1)
    as (w2 & Hrun2 & _ & _ & _ & _ & _ & _ & Hdl2 & Hdc2).
  rewrite (bind_returns _ _ _ _ _ Hrun2); cbv beta.
  change (limiter w1) with (limiter w) in *.
  unfold bind at 1.
  destruct (check_daily_limit env now w2) as [[[]|e] w3] eqn:Hrun3; [|discriminate].
  destruct (check_daily_limit_daily now w2 w3 ltac:(lia) Hrun3) as [Hdl3 Hdc3].
  unfold bind at 1.
  destruct (remove_old_requests now w3) as [[[]|e] w4] eqn:Hrun4; [|discriminate].
  destruct (daily_frame_remove_old_requests now _ _ _ Hrun4) as [Hdc4 Hdl4].
  unfold bind at 1.
  destruct (check_burst_limit env now w4) as [[[]|e] w5] eqn:Hrun5; [|discriminate].
  destruct (daily_frame_check_burst_limit now _ _ _ Hrun5) as [Hdc5 Hdl5].
  unfold record_request, bind, time_time, update_limiter, modify.
  intros [= <-]. unfold limiter in *. cbn. 
  assert (0 <= daily_count (rate_limiter (api w2)))%Z by (destruct Hdc2 as [-> | ->]; lia).
  lia.
Qed.
End Daily.

End MoreLimiter.

Lemma wait_if_needed_under_limits_witness :
  (daily_count (limiter fresh_world) < daily_limit (limiter fresh_world))%Z
  /\ (0 < daily_limit (limiter fresh_world))%Z
  /\ (Z.of_nat (length (request_times (limiter fresh_world)))
      < burst_limit (limiter fresh_world))%Z
  /\ exists w',
       wait_if_needed steady_env fresh_world = (Returns tt, w')
       /\ trace w' = trace fresh_world
       /\ ticks w' = 2%nat.
Proof.
  assert (H1 : (daily_count (limiter fresh_world) < daily_limit (limiter fresh_world))%Z)
    by reflexivity.
  assert (H2 : (0 < daily_limit (limiter fresh_world))%Z) by reflexivity.
  assert (H3 : (Z.of_nat (length (request_times (limiter fresh_world)))
                < burst_limit (limiter fresh_world))%Z) by reflexivity.
  split; [exact H1|]. split; [exact H2|]. split; [exact H3|].
  destruct (wait_if_needed_under_limits steady_env fresh_world H1 H2 H3)
    as (w' & kept & Hrun & Htr & Hticks & _).
  exists w'. split; [exact Hrun|]. split; [exact Htr|exact Hticks].
Defined.

Lemma wait_if_needed_zero_burst_witness :
  (burst_limit (limiter zero_burst_world) <= 0)%Z
  /\ request_times (limiter zero_burst_world) = []
  /\ (daily_count (limiter zero_burst_world) < daily_limit (limiter zero_burst_world))%Z
  /\ (0 < daily_limit (limiter zero_burst_world))%Z
  /\ exists w',
       wait_if_needed steady_env zero_burst_world
       = (Raises (Exception "IndexError" "deque index out of range"), w').
Proof.
  assert (H1 : (burst_limit (limiter zero_burst_world) <= 0)%Z) by (vm_compute; discriminate).
  assert (H2 : request_times (limiter zero_burst_world) = []) by reflexivity.
  assert (H3 : (daily_count (limiter zero_burst_world)
                < daily_limit (limiter zero_burst_world))%Z) by reflexivity.
  assert (H4 : (0 < daily_limit (limiter zero_burst_world))%Z) by reflexivity.
  split; [exact H1|]. split; [exact H2|]. split; [exact H3|]. split; [exact H4|].
  destruct (wait_if_needed_zero_burst steady_env zero_burst_world H1 H2 H3 H4)
    as (w' & Hrun & _).
  exists w'. exact Hrun.
Defined.

Lemma wait_if_needed_daily_witness :
  (forall k, 0 < elapse steady_env k)
  /\ (1 <= 50)%Z
  /\ burst_inv 50 fresh_world
  /\ (1 <= daily_limit (limiter fresh_world))%Z
  /\ (0 <= daily_count (limiter fresh_world))%Z
  /\ exists w',
       wait_if_needed steady_env fresh_world = (Returns tt, w')
       /\ (1 <= daily_count (limiter w') <= daily_limit (limiter w'))%Z.
Proof.
  assert (H0 : forall k, 0 < elapse steady_env k) by (intros k; reflexivity).
  assert (H1 : (1 <= 50)%Z) by lia.
  assert (H2 : burst_inv 50 fresh_world) by (split; [reflexivity|left; simpl; lia]).
  assert (H3 : (1 <= daily_limit (limiter fresh_world))%Z) by (vm_compute; discriminate).
  assert (H4 : (0 <= daily_count (limiter fresh_world))%Z) by (vm_compute; discriminate).
  split; [exact H0|]. split; [exact H1|]. split; [exact H2|]. split; [exact H3|].
  split; [exact H4|].
  destruct (wait_if_needed_daily steady_env H0 50 fresh_world H1 H2 H3 H4)
    as (w' & Hrun & _ & Hcount).
  exists w'. split; [exact Hrun|exact Hcount].
Defined.

(** * The client, continued *)

Lemma wait_exponential_nonneg multiplier min max attempt :
  0 <= Tenacity.wait_exponential multiplier min max attempt.
Proof.
  unfold Tenacity.wait_exponential. cbv zeta.
  eapply Qle_trans; [|apply Q.le_max_l]. apply Q.le_max_l.
Qed.

Lemma retry_loop_raises {S A} (sleep : Q -> M S unit) wait (fn : M S A) :
  (forall attempt s, exists s', sleep (wait attempt) s = (Returns tt, s')) ->
  forall remaining attempt s e s',
    Tenacity.retry_loop sleep wait remaining attempt fn s = (Raises e, s') ->
    e = Tenacity.RetryError.
Proof.
  intros Hs remaining.
  induction remaining as [|n IH]; intros attempt s e s' H; simpl in H.
  - destruct (fn s) as [[a|e0] s1]; [discriminate|]. by injection H as <- _.
  - destruct (fn s) as [[a|e0] s1]; [discriminate|].
    destruct (Hs attempt s1) as [s2 Hs2]. rewrite Hs2 in H. eapply IH, H.
Qed.

Lemma offline_refl w : offline w w.
Proof. by split. Qed.

Lemma offline_trans a b c : offline a b -> offline b c -> offline a c.
Proof. intros [? ?] [? ?]. split; congruence. Qed.

Lemma spends_offline {A} (m : M World A) : respects offline m -> spends 0 0 m.
Proof. intros H w r w' E. destruct (H w r w' E) as [-> ->]. lia. Qed.

Lemma spends_weaken {A} k j k' j' (m : M World A) :
  (k <= k')%nat -> (j <= j')%nat -> spends k j m -> spends k' j' m.
Proof. intros Hk Hj H w r w' E. destruct (H w r w' E). lia. Qed.

Lemma spends_bind {A B} k1 j1 k2 j2 (m : M World A) (f : A -> M World B) :
  spends k1 j1 m -> (forall a, spends k2 j2 (f a)) ->
  spends (k1 + k2) (j1 + j2) (bind m f).
Proof.
  intros Hm Hf w r w' H. unfold bind in H.
  destruct (m w) as [[a|e] w1] eqn:E.
  - destruct (Hm _ _ _ E), (Hf a _ _ _ H). lia.
  - injection H as <- <-. destruct (Hm _ _ _ E). lia.
Qed.

Section MoreClient.
Variable env : Env.

Lemma time_sleep_returns s w :
  0 <= s -> exists w', time_sleep env s w = (Returns tt, w').
Proof.
  intros H. unfold time_sleep. rewrite (proj2 (Qlt_bool_false s 0)) by exact H.
  eexists. reflexivity.
Qed.

(** X15. A request that fails raises [RetryError] and nothing else: an
    HTTP error, a refused token exchange or a failure of the rate limiter
    never reaches the caller as such. *)
Lemma request_raises stream w e w' :
  request env stream w = (Raises e, w') -> e = Tenacity.RetryError.
Proof.
  unfold request, Tenacity.retry. apply retry_loop_raises.
  intros attempt s. apply time_sleep_returns, wait_exponential_nonneg.
Qed.

Lemma spends_retry_loop {A} k j wait (fn : M World A) :
  spends k j fn ->
  forall remaining attempt,
    spends (Datatypes.S remaining * k) (Datatypes.S remaining * j)
      (Tenacity.retry_loop (time_sleep env) wait remaining attempt fn).
Proof.
  intros Hf remaining.
  induction remaining as [|n IH]; intros attempt w r w' H; simpl in H.
  - destruct (fn w) as [[a|e] w1] eqn:E; injection H as <- <-;
      destruct (Hf _ _ _ E); lia.
  - destruct (fn w) as [[a|e] w1] eqn:E.
    + injection H as <- <-. destruct (Hf _ _ _ E). lia.
    + destruct (Hf _ _ _ E) as [? ?].
      destruct (time_sleep env (wait attempt) w1) as [[[]|e'] w2] eqn:E2.
      * assert (offline w1 w2) as [? ?].
        { revert E2. unfold time_sleep. destruct (Qlt_bool _ 0); intros [= <-]; by split. }
        destruct (IH _ _ _ _ H). lia.
      * injection H as <- <-.
        assert (offline w1 w2) as [? ?].
        { revert E2. unfold time_sleep. destruct (Qlt_bool _ 0); intros [= _ <-]; by split. }
        lia.
Qed.

Lemma offline_time_time : respects offline (time_time env).
Proof. intros w r w' [= <- <-]. by split. Qed.

Lemma offline_time_sleep s : respects offline (time_sleep env s).
Proof.
  intros w r w'. unfold time_sleep. destruct (Qlt_bool s 0); intros [= <- <-]; by split.
Qed.

Lemma offline_update_limiter f : respects offline (update_limiter f).
Proof. intros w r w' [= <- <-]. by split. Qed.

Lemma offline_emit e : respects offline (emit e).
Proof. intros w r w' [= <- <-]. by split. Qed.

Lemma offline_set_api f : respects offline (modify (set_api f)).
Proof. intros w r w' [= <- <-]. by split. Qed.

Ltac offline_step :=
  first
    [ apply (respects_bind _ offline_trans)
    | apply respects_gets, offline_refl
    | apply respects_ret, offline_refl
    | apply respects_raise, offline_refl
    | apply offline_time_time
    | apply offline_time_sleep
    | apply offline_update_limiter
    | apply offline_emit
    | apply offline_set_api ].

Lemma offline_wait_if_needed : respects offline (wait_if_needed env).
Proof.
  unfold wait_if_needed, reset_daily_counter, check_daily_limit, remove_old_requests,
    check_burst_limit, record_request.
  repeat (offline_step; intros).
  - destruct (Qle_bool _ _); repeat offline_step.
  - destruct (_ <=? _)%Z; repeat (offline_step; intros).
  - destruct (_ <=? _)%Z; [|offline_step].
    destruct (request_times _); [offline_step|].
    destruct (Qlt_bool 0 _); repeat (offline_step; intros).
Qed.

Lemma spends_authenticate : spends 0 3 (authenticate env).
Proof.
  unfold authenticate, Tenacity.retry.
  apply (spends_bind 0 0 0 3); [apply spends_offline, offline_emit|]. intros _.
  apply (spends_retry_loop 0 1). unfold authenticate_body.
  apply (spends_bind 0 0 0 1); [apply spends_offline; offline_step|]. intros self.
  destruct (dry_run self).
  { apply (spends_weaken 0 0); [lia..|]. apply spends_offline. offline_step. }
  intros w r w' H. unfold try_except in H.
  match type of H with context [bind (oauth_get env) ?k] => set (rest := k) in H end.
  assert (Hb : spends (0 + 0) (1 + 0) (bind (oauth_get env) rest)).
  { apply spends_bind.
    - intros v q v' [= <- <-]. simpl. lia.
    - intros [tok|why]; apply spends_offline; unfold rest; repeat (offline_step; intros). }
  destruct (bind (oauth_get env) rest w) as [[a|e] w1] eqn:E.
  - injection H as <- <-. apply (Hb _ _ _ E).
  - unfold raise in H. injection H as <- <-. apply (Hb _ _ _ E).
Qed.

(** X16. One call of [authenticate] makes at most three token exchanges
    and no API call, and when it fails it raises [RetryError]. *)
Lemma authenticate_bounds w r w' :
  authenticate env w = (r, w') ->
  http_calls w' = http_calls w
  /\ (oauth_calls w' <= oauth_calls w + 3)%nat
  /\ (forall e, r = Raises e -> e = Tenacity.RetryError).
Proof.
  intros H. destruct (spends_authenticate w r w' H) as [Hh Ho].
  split; [lia|]. split; [lia|]. intros e ->. revert H.
  unfold authenticate, Tenacity.retry. unfold bind at 1, emit at 1, modify at 1.
  apply retry_loop_raises.
  intros attempt s. apply time_sleep_returns, wait_exponential_nonneg.
Qed.

Lemma spends_session_request bearer : spends 1 0 (session_request env bearer).
Proof.
  intros w r w'. unfold session_request, bind, time_time, gets, emit, modify.
  intros [= <- <-]. simpl. lia.
Qed.

Lemma spends_handle_response stream response :
  spends 1 3 (handle_response env stream response).
Proof.
  unfold handle_response.
  apply (spends_bind 1 3 0 0).
  - destruct (status_code response =? 401)%Z.
    + apply (spends_bind 0 3 1 0); [apply spends_authenticate|]. intros _.
      apply (spends_bind 0 0 1 0); [apply spends_offline; offline_step|]. intros self.
      apply spends_session_request.
    + apply (spends_weaken 0 0); [lia..|]. apply spends_offline. offline_step.
  - intros resp. apply spends_offline.
    destruct (status_code resp =? 429)%Z; [repeat (offline_step; intros)|].
    offline_step; [|intros; offline_step].
    unfold raise_for_status. destruct (_ && _); offline_step.
Qed.

Lemma spends_request_body stream : spends 2 6 (request_body env stream).
Proof.
  unfold request_body.
  apply (spends_bind 0 0 2 6); [apply spends_offline; offline_step|]. intros self.
  destruct (dry_run self).
  { apply (spends_weaken 0 0); [lia..|]. apply spends_offline. offline_step. }
  apply (spends_bind 0 3 2 3).
  { unfold _ensure_authenticated.
    apply (spends_bind 0 0 0 3); [apply spends_offline; offline_step|]. intros t.
    apply (spends_bind 0 0 0 3); [apply spends_offline; offline_step|]. intros self'.
    destruct (Qle_bool _ _); [apply spends_authenticate|].
    apply (spends_weaken 0 0); [lia..|]. apply spends_offline. offline_step. }
  intros _.
  apply (spends_bind 0 0 2 3); [apply spends_offline, offline_wait_if_needed|]. intros _.
  apply (spends_bind 0 0 2 3); [apply spends_offline; offline_step|]. intros self'.
  apply (spends_bind 1 0 1 3); [apply spends_session_request|]. intros response.
  apply spends_handle_response.
Qed.

(** X17. One call of [request] sends at most ten HTTP requests and makes
    at most thirty token exchanges, whatever the API answers. *)
Lemma request_budget stream w :
  (http_calls (request env stream w).2 <= http_calls w + 10)%nat
  /\ (oauth_calls (request env stream w).2 <= oauth_calls w + 30)%nat.
Proof.
  pose proof (spends_retry_loop 2 6
    (Tenacity.wait_exponential Config.RETRY_BACKOFF_BASE 4 60)
    (request_body env stream) (spends_request_body stream) 4 1%nat w) as H.
  unfold request, Tenacity.retry. change (Config.MAX_RETRIES - 1)%nat with 4%nat.
  destruct (Tenacity.retry_loop _ _ 4 1%nat _ w) as [r w'].
  destruct (H r w' eq_refl). simpl in *. lia.
Qed.

End MoreClient.

Lemma request_raises_witness :
  exists w',
    request down_env false fresh_world = (Raises Tenacity.RetryError, w').
Proof.
  destruct (request down_env false fresh_world) as [[a|e] w'] eqn:E.
  - vm_compute in E. discriminate E.
  - exists w'. rewrite (request_raises down_env false fresh_world e w' E). reflexivity.
Defined.

Lemma authenticate_bounds_witness :
  exists w',
    authenticate refused_env fresh_world = (Raises Tenacity.RetryError, w')
    /\ oauth_calls w' = 3%nat.
Proof.
  destruct (authenticate refused_env fresh_world) as [r w'] eqn:E.
  destruct (authenticate_bounds refused_env fresh_world r w' E) as (_ & _ & Hr).
  assert (H : r = Raises Tenacity.RetryError /\ oauth_calls w' = 3%nat).
  { vm_compute in E. injection E as <- <-. split; reflexivity. }
  destruct H as [-> Hc]. exists w'. split; [reflexivity|exact Hc].
Defined.

(** * Jobs, continued *)

Section MoreJobs.
Variable config : PublishConfig.
Variable cwd : list string.

(** X18. The directory of a student is the section directory followed by
    the slug, for every slug but two: with the slug [.] it is the section
    directory itself.  The slug [..], the only one left out here, climbs
    out of the section directory. *)
Lemma student_dir_place section student :
  job_slug student <> ".." ->
  resolved cwd (student_dir config section student)
  = (resolved cwd (PurePath.joinpath (build_dir config) section)
     ++ (if String.eqb (job_slug student) "." then [] else [job_slug student]))%list.
Proof.
  intros Hdd. unfold student_dir. cbv zeta.
  pose proof (parse_component (job_slug student)
                (sanitize_name_no_slash _) (sanitize_name_nonempty _)) as Hp.
  unfold resolved, PurePath.joinpath at 1. rewrite Hp. cbn [PurePath.absolute PurePath.parts].
  set (sd := PurePath.joinpath (build_dir config) section).
  unfold PurePath.resolve, PurePath.normalize. cbn [PurePath.absolute PurePath.parts].
  destruct (String.eqb_spec (job_slug student) ".") as [Hdot|Hdot].
  - rewrite app_nil_r. by destruct (PurePath.absolute sd); rewrite app_nil_r.
  - destruct (PurePath.absolute sd); rewrite fold_left_app; simpl;
      unfold PurePath.push at 1;
      destruct (String.eqb_spec (job_slug student) ".."); done.
Qed.

End MoreJobs.

Lemma student_dir_place_witness :
  job_slug ada <> ".."
  /\ resolved demo_cwd (student_dir demo_config "7A" ada)
     = ["srv"; "about-me"; "build"; "7A"; "ada"].
Proof.
  assert (H : job_slug ada <> "..") by (vm_compute; discriminate).
  split; [exact H|].
  rewrite (student_dir_place demo_config demo_cwd "7A" ada H). reflexivity.
Defined.






(** * The index page *)

Lemma insert_by_perm {A} (key : A -> string) x l : insert_by key x l ≡ₚ x :: l.
Proof.
  induction l as [|y l IH]; simpl; [done|].
  destruct (String.leb _ _); [done|]. rewrite IH. apply Permutation_swap.
Qed.

Lemma sort_by_perm {A} (key : A -> string) l : sort_by key l ≡ₚ l.
Proof.
  induction l as [|x l IH]; simpl; [done|]. by rewrite insert_by_perm, IH.
Qed.

Lemma leb_flip s t : String.leb s t = false -> String.leb t s = true.
Proof. intros H. destruct (String.leb_total s t); congruence. Qed.

Lemma insert_by_sorted {A} (key : A -> string) x l :
  Sorted (key_le key) l -> Sorted (key_le key) (insert_by key x l).
Proof.
  induction 1 as [|y l Hs IH Hhd]; simpl; [by repeat constructor|].
  destruct (String.leb (key x) (key y)) eqn:E.
  - constructor; [by constructor|]. by constructor.
  - constructor; [exact IH|].
    destruct Hhd as [|z l Hz]; simpl.
    + constructor. by apply leb_flip.
    + destruct (String.leb (key x) (key z)); constructor; [by apply leb_flip|done].
Qed.

Lemma sort_by_sorted {A} (key : A -> string) l : Sorted (key_le key) (sort_by key l).
Proof. induction l as [|x l IH]; simpl; [constructor|by apply insert_by_sorted]. Qed.

Lemma listed_append sec student d :
  listed (append_to_section sec student d) ≡ₚ student :: listed d.
Proof.
  unfold listed. induction d as [|[k vs] d IH]; simpl; [done|].
  destruct (String.eqb k sec); simpl.
  - rewrite <- app_assoc. simpl. by rewrite <- Permutation_middle.
  - rewrite IH. by rewrite <- Permutation_middle.
Qed.

Lemma organize_acc manifest : forall d,
  listed (List.fold_left
    (fun sections_data student =>
       if has_errors student then sections_data
       else append_to_section (section student) student sections_data)
    manifest d)
  ≡ₚ (listed d ++ List.filter (fun s => negb (has_errors s)) manifest)%list.
Proof.
  induction manifest as [|s m IH]; intros d; simpl; [by rewrite app_nil_r|].
  rewrite IH. destruct (has_errors s); simpl; [done|].
  rewrite listed_append. by rewrite <- Permutation_middle.
Qed.

Lemma listed_perm (d1 d2 : SectionsData) : d1 ≡ₚ d2 -> listed d1 ≡ₚ listed d2.
Proof.
  unfold listed. induction 1; simpl.
  - done.
  - by f_equiv.
  - rewrite !app_assoc. f_equiv. apply Permutation_app_comm.
  - by etrans.
Qed.

Lemma listed_sorted_each (d : SectionsData) :
  listed (List.map (fun '(sec, students) => (sec, sort_by display_name_short students)) d)
  ≡ₚ listed d.
Proof.
  unfold listed. induction d as [|[k vs] d IH]; simpl; [done|].
  by rewrite sort_by_perm, IH.
Qed.

(** X19. The index page lists the entries of the manifest that carry no
    error, each of them once; an entry with errors is not listed. *)
Lemma index_lists_sound_entries manifest :
  listed (sorted_sections manifest)
  ≡ₚ List.filter (fun s => negb (has_errors s)) manifest.
Proof.
  unfold sorted_sections.
  rewrite (listed_perm _ _ (sort_by_perm fst _)), listed_sorted_each.
  unfold organize. by rewrite organize_acc.
Qed.

Lemma append_to_section_keys sec student d :
  List.map fst (append_to_section sec student d)
  = if bool_decide (sec ∈ List.map fst d) then List.map fst d
    else (List.map fst d ++ [sec])%list.
Proof.
  induction d as [|[k vs] d IH]; simpl; [done|].
  destruct (String.eqb_spec k sec) as [->|Hne]; simpl.
  - rewrite bool_decide_eq_true_2; [done|]. by left.
  - rewrite IH. destruct (bool_decide (sec ∈ List.map fst d)) eqn:E.
    + apply bool_decide_eq_true_1 in E. rewrite bool_decide_eq_true_2; [done|]. by right.
    + apply bool_decide_eq_false_1 in E. rewrite bool_decide_eq_false_2; [done|].
      intros [?|?]%elem_of_cons; [congruence|done].
Qed.

Lemma append_to_section_NoDup sec student d :
  NoDup (List.map fst d) -> NoDup (List.map fst (append_to_section sec student d)).
Proof.
  intros H. rewrite append_to_section_keys. case_bool_decide as E; [done|].
  apply NoDup_app. split; [done|]. split; [|apply NoDup_singleton].
  intros x Hx ->%list_elem_of_singleton. done.
Qed.

Lemma append_to_section_grouped student d :
  well_grouped d -> well_grouped (append_to_section (section student) student d).
Proof.
  unfold well_grouped. induction 1 as [|[k vs] d [Hne Hall] Hd IH]; simpl.
  - constructor; [|constructor]. split; [done|]. by constructor.
  - destruct (String.eqb_spec k (section student)) as [->|Hk].
    + constructor; [|done]. split; [by destruct vs|].
      apply Forall_app. split; [done|]. by constructor.
    + constructor; [by split|done].
Qed.

Lemma organize_invariant manifest : forall d,
  NoDup (List.map fst d) -> well_grouped d ->
  let d' := List.fold_left
    (fun sections_data student =>
       if has_errors student then sections_data
       else append_to_section (section student) student sections_data)
    manifest d in
  NoDup (List.map fst d') /\ well_grouped d'.
Proof.
  induction manifest as [|s m IH]; intros d Hn Hw; simpl; [done|].
  destruct (has_errors s); [by apply IH|].
  apply IH; [by apply append_to_section_NoDup|by apply append_to_section_grouped].
Qed.

(** X20. The sections of the index page come in the order of their names,
    no name twice and no section empty; under each the students are in the
    order of their display names, and each student is under the section of
    the manifest entry. *)
Lemma index_order manifest :
  Sorted (key_le fst) (sorted_sections manifest)
  /\ NoDup (List.map fst (sorted_sections manifest))
  /\ Forall (fun '(sec, students) =>
               students <> []
               /\ Sorted (key_le display_name_short) students
               /\ Forall (fun s => section s = sec) students)
       (sorted_sections manifest).
Proof.
  destruct (organize_invariant manifest [] (NoDup_nil_2) (Forall_nil_2 _)) as [Hn Hw].
  fold (organize manifest) in Hn, Hw. unfold sorted_sections.
  set (each := List.map _ (organize manifest)).
  split; [apply sort_by_sorted|]. split.
  - rewrite (sort_by_perm fst each). unfold each. rewrite map_map.
    erewrite map_ext; [exact Hn|]. by intros [? ?].
  - rewrite (sort_by_perm fst each). unfold each. apply Forall_map.
    eapply Forall_impl; [exact Hw|]. intros [k vs] [Hne Hall]. simpl.
    split; [|split].
    + intros Hnil. apply Hne. apply Permutation_nil_r. rewrite <- Hnil.
      by rewrite sort_by_perm.
    + apply sort_by_sorted.
    + by rewrite sort_by_perm.
Qed.

(** * Link validation *)

Section MoreValidation.
Variable requests_head : StudentResult -> Result Z.

Lemma validate_links_acc manifest : forall v,
  let v' := List.fold_left (validate_link requests_head) manifest v in
  (total v' + (passed v + failed v) = total v + (passed v' + failed v'))%nat
  /\ (total v' + missing_entry v' = total v + missing_entry v + length manifest)%nat
  /\ (total v' = total v
        + length (List.filter (fun s => negb (has_errors s || no_entry_file s)) manifest))%nat
  /\ List.map (fun d => (detail_student d, detail_section d)) (details v')
     = (List.map (fun d => (detail_student d, detail_section d)) (details v)
        ++ List.map (fun s => (display_name_short s, section s)) manifest)%list.
Proof.
  induction manifest as [|s m IH]; intros v; cbn zeta.
  - simpl. rewrite app_nil_r. repeat split; lia.
  - cbn [List.fold_left]. specialize (IH (validate_link requests_head v s)). cbn zeta in IH.
    destruct IH as (H1 & H2 & H3 & H4). rewrite H4. clear H4.
    unfold validate_link in *. cbn [List.filter length List.map].
    destruct (has_errors s || no_entry_file s); cbn [negb] in *.
    + cbn [total passed failed missing_entry details] in *.
      rewrite map_app, <- app_assoc. cbn. repeat split; lia.
    + cbn [total passed failed missing_entry details] in *.
      rewrite map_app, <- app_assoc.
      destruct (match requests_head s with Returns c => _ | Raises _ => false end);
        cbn in *; repeat split; lia.
Qed.

(** X21. Every manifest entry is counted once, as tested or as missing an
    entry page; every tested one as passed or as failed; the tested ones
    are those without errors and with an entry file; and the details
    follow the manifest, one record for each entry. *)
Lemma validation_accounting manifest :
  let v := validate_student_links requests_head manifest in
  (total v = passed v + failed v)%nat
  /\ (total v + missing_entry v = length manifest)%nat
  /\ (total v = length (List.filter
                  (fun s => negb (has_errors s || no_entry_file s)) manifest))%nat
  /\ List.map (fun d => (detail_student d, detail_section d)) (details v)
     = List.map (fun s => (display_name_short s, section s)) manifest.
Proof.
  cbn zeta. unfold validate_student_links.
  destruct (validate_links_acc manifest
    {| total := 0; passed := 0; failed := 0; missing_entry := 0; details := [] |})
    as (H1 & H2 & H3 & H4).
  cbn [total passed failed missing_entry details] in *. simpl in H4.
  repeat split; try lia; done.
Qed.

End MoreValidation.

(** * Polling an export task *)

Lemma later_refl w : later w w.
Proof. apply Qle_refl. Qed.

Lemma later_trans a b c : later a b -> later b c -> later a c.
Proof. apply Qle_trans. Qed.

Section MorePolling.
Variable env : Env.
Variable decode : Reply -> TaskStatus.
Hypothesis time_flows : forall k, 0 <= elapse env k.

Lemma later_time_time : respects later (time_time env).
Proof.
  intros w r w' [= <- <-]. unfold later. simpl.
  pose proof (time_flows (ticks w)). lra.
Qed.

Lemma later_time_sleep s : respects later (time_sleep env s).
Proof.
  intros w r w'. unfold time_sleep. destruct (Qlt_bool s 0) eqn:E.
  - intros [= <- <-]. apply later_refl.
  - intros [= <- <-]. unfold later. simpl. apply Qlt_bool_false in E.
    pose proof (time_flows (ticks w)). lra.
Qed.

Lemma later_update_limiter f : respects later (update_limiter f).
Proof. intros w r w' [= <- <-]. unfold later. simpl. apply Qle_refl. Qed.

Lemma later_emit e : respects later (emit e).
Proof. intros w r w' [= <- <-]. unfold later. simpl. apply Qle_refl. Qed.

Lemma later_set_api f : respects later (modify (set_api f)).
Proof. intros w r w' [= <- <-]. unfold later. simpl. apply Qle_refl. Qed.

Lemma later_oauth_get : respects later (oauth_get env).
Proof. intros w r w' [= <- <-]. unfold later. simpl. apply Qle_refl. Qed.

Ltac later_step :=
  first
    [ apply (respects_bind _ later_trans)
    | apply (respects_try_except _ later_trans)
    | apply respects_gets, later_refl
    | apply respects_ret, later_refl
    | apply respects_raise, later_refl
    | apply later_time_time
    | apply later_time_sleep
    | apply later_update_limiter
    | apply later_emit
    | apply later_set_api
    | apply later_oauth_get ].

Lemma later_wait_if_needed : respects later (wait_if_needed env).
Proof.
  unfold wait_if_needed, reset_daily_counter, check_daily_limit, remove_old_requests,
    check_burst_limit, record_request.
  repeat (later_step; intros).
  - destruct (Qle_bool _ _); repeat later_step.
  - destruct (_ <=? _)%Z; repeat (later_step; intros).
  - destruct (_ <=? _)%Z; [|later_step].
    destruct (request_times _); [later_step|].
    destruct (Qlt_bool 0 _); repeat (later_step; intros).
Qed.

Lemma later_authenticate : respects later (authenticate env).
Proof.
  unfold authenticate, Tenacity.retry.
  later_step; [later_step|]. intros _.
  apply (respects_retry_loop _ later_trans); [apply later_time_sleep|].
  unfold authenticate_body. later_step; [later_step|]. intros self.
  destruct (dry_run self); [later_step|].
  later_step; [|intros; later_step].
  later_step; [later_step|]. intros [tok|why]; repeat (later_step; intros).
Qed.

Lemma later_session_request bearer : respects later (session_request env bearer).
Proof.
  unfold session_request. repeat (later_step; intros).
  intros w r w' [= <- <-]. unfold later. simpl. apply Qle_refl.
Qed.

Lemma later_request stream : respects later (request env stream).
Proof.
  unfold request, Tenacity.retry.
  apply (respects_retry_loop _ later_trans); [apply later_time_sleep|].
  unfold request_body. later_step; [later_step|]. intros self.
  destruct (dry_run self); [later_step|].
  later_step.
  { unfold _ensure_authenticated. repeat (later_step; intros).
    destruct (Qle_bool _ _); [apply later_authenticate|later_step]. }
  intros _. later_step; [apply later_wait_if_needed|]. intros _.
  later_step; [later_step|]. intros self'.
  later_step; [apply later_session_request|]. intros response.
  unfold handle_response. later_step.
  - destruct (status_code response =? 401)%Z; [|later_step].
    later_step; [apply later_authenticate|]. intros _.
    later_step; [later_step|]. intros. apply later_session_request.
  - intros resp. destruct (status_code resp =? 429)%Z; [repeat (later_step; intros)|].
    later_step; [|intros; later_step].
    unfold raise_for_status. destruct (_ && _); later_step.
Qed.

Lemma poll_download_task_unfold fuel start_time max_wait w :
  poll_download_task env decode (Datatypes.S fuel) start_time max_wait w
  = let t := clock w + elapse env (ticks w) in
    let w0 := {| clock := t; ticks := Datatypes.S (ticks w);
                 http_calls := http_calls w; oauth_calls := oauth_calls w;
                 trace := trace w; api := api w |} in
    if Qlt_bool (t - start_time) max_wait
    then
      match request env false w0 with
      | (Returns result, w1) =>
          if task_done (decode result)
          then
            match task_error (decode result) with
            | Some error =>
                if Py.truthy error
                then (Raises (Exception "RuntimeError"
                                ("Export task failed: " +:+ error)), w1)
                else return_url (decode result) w1
            | None => return_url (decode result) w1
            end
          else
            poll_download_task env decode fuel start_time max_wait
              {| clock := clock w1 + (1 # 2) + elapse env (ticks w1);
                 ticks := Datatypes.S (ticks w1);
                 http_calls := http_calls w1; oauth_calls := oauth_calls w1;
                 trace := (trace w1 ++ [EvSleep (1 # 2)])%list; api := api w1 |}
      | (Raises e, w1) => (Raises e, w1)
      end
    else (Raises (Exception "TimeoutError" "Task did not complete"), w0).
Proof.
  cbn [poll_download_task]. unfold bind at 1. unfold time_time at 1. cbv zeta.
  destruct (Qlt_bool _ max_wait); [|reflexivity].
  unfold bind at 1. destruct (request env false _) as [[result|e] w1]; [|reflexivity].
  destruct (task_done (decode result)); [|reflexivity].
  destruct (task_error (decode result)) as [err|]; [|reflexivity].
  destruct (Py.truthy err); reflexivity.
Qed.

Lemma poll_download_task_ends start_time max_wait n :
  forall w fuel,
    sleeps_left start_time max_wait n w ->
    (n < fuel)%nat ->
    poll_download_task env decode fuel start_time max_wait w
    = poll_download_task env decode (Datatypes.S n) start_time max_wait w
    /\ (poll_download_task env decode (Datatypes.S n) start_time max_wait w).1
       <> Returns None.
Proof.
  induction n as [|m IH]; intros w fuel Hleft Hfuel;
    (destruct fuel as [|f]; [lia|]); unfold sleeps_left in Hleft;
    rewrite !poll_download_task_unfold; cbv zeta;
    pose proof (time_flows (ticks w)) as He;
    set (t := clock w + elapse env (ticks w)) in *;
    set (w0 := {| clock := t |}).
  - assert (Hlate : Qlt_bool (t - start_time) max_wait = false).
    { apply Qlt_bool_false. change (inject_Z (Z.of_nat 0)) with 0 in Hleft.
      unfold t. lra. }
    rewrite Hlate. split; [reflexivity|]. discriminate.
  - destruct (Qlt_bool (t - start_time) max_wait) eqn:Hcheck;
      [|split; [reflexivity|discriminate]].
    destruct (request env false w0) as [[result|e] w1] eqn:Hreq;
      [|split; [reflexivity|discriminate]].
    destruct (task_done (decode result)).
    { assert (Hurl : (@return_url World (decode result) w1).1 <> Returns None).
      { unfold return_url. destruct (task_url (decode result)); discriminate. }
      destruct (task_error (decode result)) as [err|];
        [destruct (Py.truthy err)|]; split; try reflexivity; try exact Hurl;
        discriminate. }
    pose proof (later_request false w0 _ w1 Hreq) as Hl1. unfold later in Hl1.
    change (clock w0) with t in Hl1.
    apply IH; [|lia].
    unfold sleeps_left. cbn [clock].
    pose proof (time_flows (ticks w1)) as He1.
    rewrite Nat2Z.inj_succ, <- Z.add_1_r, inject_Z_plus in Hleft.
    change (inject_Z 1) with 1 in Hleft. unfold t in Hl1. lra.
Qed.

(** X22. Polling an export task ends when the clock does not run backwards:
    whatever the API answers, the loop is left after at most 600 sleeps of
    half a second, with the URL, with [RuntimeError] or [KeyError], with the
    exception of a failed request, or with [TimeoutError]; the outcome is
    the same for every bound above 600 on the number of turns. *)
Lemma wait_download_task_ends w fuel :
  (600 < fuel)%nat ->
  _wait_download_task env decode fuel 300 w
  = _wait_download_task env decode 601 300 w
  /\ (_wait_download_task env decode 601 300 w).1 <> Returns None.
Proof.
  intros Hfuel. unfold _wait_download_task, bind, time_time.
  set (w0 := {| clock := clock w + elapse env (ticks w) |}).
  apply (poll_download_task_ends _ 300 600 w0 fuel); [|exact Hfuel].
  unfold sleeps_left, w0. cbn [clock]. change (inject_Z (Z.of_nat 600)) with 600.
  lra.
Qed.
End MorePolling.

Lemma wait_download_task_ends_witness :
  (forall k, 0 <= elapse steady_env k)
  /\ (600 < 700)%nat
  /\ _wait_download_task steady_env ready_at_once 700 300 fresh_world
     = _wait_download_task steady_env ready_at_once 601 300 fresh_world
  /\ (_wait_download_task steady_env ready_at_once 601 300 fresh_world).1
     = Returns (Some "https://codio.example/export.zst").
Proof.
  assert (H0 : forall k, 0 <= elapse steady_env k) by (intros k; discriminate).
  assert (H1 : (600 < 700)%nat) by lia.
  split; [exact H0|]. split; [exact H1|].
  split; [|vm_compute; reflexivity].
  exact (proj1 (wait_download_task_ends steady_env ready_at_once H0 fresh_world 700 H1)).
Defined.
